(** * proxify: the request pipeline of app.js and the CORS worker of
      service-worker.js, as a shallow embedding.

    JavaScript strings are modelled as [string] (the UTF-8 bytes of the
    text), thrown values as [JsError] records, promises that are awaited
    as sequential steps of a state-and-exception monad over a [World]
    (cache store, content region, console, observation trace).  The
    browser's own algorithms that the code calls but does not contain
    (the URL parser, the HTML fragment parser, the network, the cache
    storage and whether one of its operations rejects) are fields of a
    [Browser] record; every function of the source that calls one takes
    it as an argument. *)

From Stdlib Require Import String Ascii List ZArith Lia Bool DecimalString.
From stdpp Require Import base gmap strings list.

Local Open Scope string_scope.
Local Open Scope list_scope.

(** ** JavaScript string primitives used by the source *)
Module Js.

(** [s.startsWith(p)] *)
Definition startsWith (p s : string) : bool := String.prefix p s.

(** [s.includes(needle)] *)
Fixpoint includes (needle s : string) : bool :=
  String.prefix needle s ||
  match s with
  | EmptyString => false
  | String _ rest => includes needle rest
  end.

(** Truthiness of a string value: only the empty string is falsy. *)
Definition truthy (s : string) : bool :=
  match s with EmptyString => false | String _ _ => true end.

(** Truthiness of a possibly undefined/null string. *)
Definition truthy_opt (o : option string) : bool :=
  match o with Some s => truthy s | None => false end.

(** ASCII lower-casing of one byte and of a string. *)
Definition lower_ascii (c : ascii) : ascii :=
  let n := nat_of_ascii c in
  if (65 <=? n)%nat && (n <=? 90)%nat then ascii_of_nat (n + 32) else c.

Fixpoint lower (s : string) : string :=
  match s with
  | EmptyString => EmptyString
  | String c r => String (lower_ascii c) (lower r)
  end.

Definition hex_digit (n : nat) : ascii :=
  match n with
  | 0 => "0" | 1 => "1" | 2 => "2" | 3 => "3" | 4 => "4" | 5 => "5"
  | 6 => "6" | 7 => "7" | 8 => "8" | 9 => "9" | 10 => "A" | 11 => "B"
  | 12 => "C" | 13 => "D" | 14 => "E" | _ => "F"
  end%char.

(** The characters [encodeURIComponent] leaves alone:
    A-Z a-z 0-9 - _ . ! ~ * ' ( ) *)
Definition uri_unreserved (c : ascii) : bool :=
  let n := nat_of_ascii c in
  ((65 <=? n)%nat && (n <=? 90)%nat) ||
  ((97 <=? n)%nat && (n <=? 122)%nat) ||
  ((48 <=? n)%nat && (n <=? 57)%nat) ||
  existsb (Nat.eqb n) [45; 95; 46; 33; 126; 42; 39; 40; 41]%nat.

(** [encodeURIComponent(s)]: every byte of the UTF-8 form that is not
    unreserved becomes [%XX] with upper-case hexadecimal digits. *)
Fixpoint encodeURIComponent (s : string) : string :=
  match s with
  | EmptyString => EmptyString
  | String c r =>
      if uri_unreserved c then String c (encodeURIComponent r)
      else
        let n := nat_of_ascii c in
        String "%" (String (hex_digit (n / 16))
                      (String (hex_digit (n mod 16)) (encodeURIComponent r)))
  end.

(** [String(n)] for an integer: its decimal digits. *)
Definition number_toString (n : Z) : string :=
  NilZero.string_of_int (Z.to_int n).

(** Every character of the text satisfies [p]. *)
Fixpoint every (p : ascii -> bool) (s : string) : bool :=
  match s with
  | EmptyString => true
  | String c r => p c && every p r
  end.

End Js.

(** ** Thrown values *)

(** The value of the [code] property of a thrown object: a string on
    the errors the source tags, a number on a DOMException. *)
Inductive JsCode : Type :=
| CodeString (s : string)
| CodeNumber (n : Z).

Coercion CodeString : string >-> JsCode.

(** A thrown object as the source reads it: the optional [code] and
    [status] properties and the message. *)
Record JsError : Type := mkError {
  code : option JsCode;    (* [None]: the object has no [code] *)
  status : option Z;
  message : string
}.

(** Truthiness of a [code]: the empty string and zero are falsy. *)
Definition code_truthy (c : option JsCode) : bool :=
  match c with
  | Some (CodeString s) => Js.truthy s
  | Some (CodeNumber n) => negb (Z.eqb n 0)
  | None => false
  end.

(** [error.code || fallback] *)
Definition code_or (c : option JsCode) (fallback : string) : JsCode :=
  match c with
  | Some v => if code_truthy c then v else CodeString fallback
  | None => CodeString fallback
  end.

(** How a promise of the browser's own rejects: with a TypeError, which
    has no [code], or with a DOMException, whose [code] is the number of
    its name (18 for SecurityError, 22 for QuotaExceededError, 0 for the
    names that have none). *)
Inductive Rejection : Type :=
| RejectTypeError
| RejectDOMException (name : string) (legacy_code : Z).

Definition rejection_error (r : Rejection) : JsError :=
  match r with
  | RejectTypeError => mkError None None "TypeError"
  | RejectDOMException name n => mkError (Some (CodeNumber n)) None name
  end.

Inductive Result (A : Type) : Type :=
| Ok (a : A)
| Throw (e : JsError).
Arguments Ok {A} a.
Arguments Throw {A} e.

(** ** The URL API *)

(** What the source reads from a [URL] object. *)
Record URL : Type := mkURL {
  protocol : string;   (* url.protocol, the scheme followed by ":" *)
  href : string        (* url.href, the serialised URL *)
}.

(** ** The DOM fragment the renderer works on *)
Module Dom.

Inductive Namespace : Type := HTML | SVG | MathML.

(** A node of a parsed fragment.  [uid] is the identity of the element
    object: a [NodeList] holds references to elements, and
    [node.remove()] detaches that very element. *)
Inductive Node : Type :=
| Text (data : string)
| Element (uid : nat) (ns : Namespace) (localName : string)
          (attrs : list (string * string)) (children : list Node).

Definition is_element (n : Node) : bool :=
  match n with Text _ => false | Element _ _ _ _ _ => true end.

Definition has_uid (i : nat) (n : Node) : bool :=
  match n with
  | Text _ => false
  | Element u _ _ _ _ => Nat.eqb u i
  end.

Definition uid_of (n : Node) : option nat :=
  match n with
  | Text _ => None
  | Element u _ _ _ _ => Some u
  end.

(** [el.getAttribute(name)] *)
Fixpoint getAttribute (name : string) (attrs : list (string * string))
  : option string :=
  match attrs with
  | [] => None
  | (k, v) :: r => if String.eqb k name then Some v else getAttribute name r
  end.

(** The two shapes of compound selector the source uses. *)
Inductive Compound : Type :=
| TypeSel (name : string)                  (* script, style *)
| TypeAttrSel (name attr value : string).  (* link[rel="stylesheet"] *)

(** A selector list: compounds separated by commas. *)
Definition Selector : Type := list Compound.

(** Comparison of an attribute value with the selector's value.  In an
    HTML document the value of [rel] on an HTML element is compared
    ASCII case-insensitively; elsewhere the comparison is exact. *)
Definition attr_value_matches (ns : Namespace) (attr actual wanted : string)
  : bool :=
  match ns with
  | HTML =>
      if String.eqb attr "rel"
      then String.eqb (Js.lower actual) (Js.lower wanted)
      else String.eqb actual wanted
  | _ => String.eqb actual wanted
  end.

Definition matches_compound (c : Compound) (n : Node) : bool :=
  match n with
  | Text _ => false
  | Element _ ns ln attrs _ =>
      match c with
      | TypeSel name => String.eqb ln name
      | TypeAttrSel name attr value =>
          String.eqb ln name &&
          match getAttribute attr attrs with
          | Some actual => attr_value_matches ns attr actual value
          | None => false
          end
      end
  end.

(** [el.matches(selector)] *)
Definition matches (sel : Selector) (n : Node) : bool :=
  existsb (fun c => matches_compound c n) sel.

(** The elements of a subtree in document order, the root first. *)
Fixpoint elements (n : Node) : list Node :=
  match n with
  | Text _ => []
  | Element _ _ _ _ ch => n :: flat_map elements ch
  end.

Definition elements_of (l : list Node) : list Node := flat_map elements l.

(** The element descendants of a node, in document order. *)
Definition descendants (n : Node) : list Node :=
  match n with
  | Text _ => []
  | Element _ _ _ _ ch => elements_of ch
  end.

(** [root.querySelectorAll(selector)]: a static list of the matching
    descendants, in document order. *)
Definition querySelectorAll (sel : Selector) (root : Node) : list Node :=
  List.filter (matches sel) (descendants root).

(** Detaching the element whose identity is [i] from the tree under
    [n]; the element leaves with its whole subtree. *)
Fixpoint detach (i : nat) (n : Node) : Node :=
  match n with
  | Text s => Text s
  | Element u ns ln attrs ch =>
      Element u ns ln attrs
        ((fix go (l : list Node) : list Node :=
            match l with
            | [] => []
            | c :: r => if has_uid i c then go r else detach i c :: go r
            end) ch)
  end.

(** [target.remove()], seen from the tree rooted at [root]. *)
Definition remove (target root : Node) : Node :=
  match uid_of target with
  | Some i => detach i root
  | None => root
  end.

(** [list.forEach(x => x.remove())] *)
Definition forEach_remove (targets : list Node) (root : Node) : Node :=
  fold_left (fun t x => remove x t) targets root.

(** [document.createElement(name)]; [i] is the identity of the new
    element. *)
Definition createElement (i : nat) (name : string) : Node :=
  Element i HTML name [] [].

(** [el.innerHTML = html] with the fragment the parser produced. *)
Definition set_children (ch : list Node) (n : Node) : Node :=
  match n with
  | Text s => Text s
  | Element u ns ln attrs _ => Element u ns ln attrs ch
  end.

(** [node.childNodes] *)
Definition childNodes (n : Node) : list Node :=
  match n with
  | Text _ => []
  | Element _ _ _ _ ch => ch
  end.

(** What an element is apart from its children: identity, namespace,
    name and attributes. *)
Definition label (n : Node)
  : option (nat * Namespace * string * list (string * string)) :=
  match n with
  | Text _ => None
  | Element u ns ln attrs _ => Some (u, ns, ln, attrs)
  end.

(** The tree without the elements that satisfy [p], each gone with its
    subtree. *)
Fixpoint prune (p : Node -> bool) (n : Node) : Node :=
  match n with
  | Text s => Text s
  | Element u ns ln attrs ch =>
      Element u ns ln attrs
        ((fix go (l : list Node) : list Node :=
            match l with
            | [] => []
            | c :: r => if p c then go r else prune p c :: go r
            end) ch)
  end.

Fixpoint prune_list (p : Node -> bool) (l : list Node) : list Node :=
  match l with
  | [] => []
  | c :: r => if p c then prune_list p r else prune p c :: prune_list p r
  end.

(** The elements of a subtree in document order, each with the chain of
    its ancestors, the nearest first; [anc] is the chain of the root. *)
Fixpoint with_ancestors (anc : list Node) (n : Node) : list (list Node * Node) :=
  match n with
  | Text _ => []
  | Element _ _ _ _ ch => (anc, n) :: flat_map (with_ancestors (n :: anc)) ch
  end.

(** Neither the element nor one of its ancestors satisfies [p]. *)
Definition clear_of (p : Node -> bool) (x : list Node * Node) : bool :=
  negb (p (snd x)) && forallb (fun a => negb (p a)) (fst x).

(** A predicate on nodes that looks at the label only. *)
Definition by_label (p : Node -> bool) : Prop :=
  forall n m, label n = label m -> p n = p m.

(** A predicate that holds of no text node. *)
Definition on_elements (p : Node -> bool) : Prop :=
  forall s, p (Text s) = false.

(** Whether [x] is one of the elements referenced by [targets]. *)
Definition targeted (targets : list Node) (x : Node) : bool :=
  existsb (fun t => match uid_of t with
                    | Some i => has_uid i x
                    | None => false
                    end) targets.

End Dom.

(** ** Headers and responses of the Fetch API *)
Module Fetch.

(** A header list; names are compared ASCII case-insensitively. *)
Definition Headers : Type := list (string * string).

Definition name_eq (a b : string) : bool :=
  String.eqb (Js.lower a) (Js.lower b).

Definition values_of (name : string) (h : Headers) : list string :=
  map snd (List.filter (fun kv => name_eq (fst kv) name) h).

(** [headers.get(name)]: the values under that name joined by ", ",
    [None] (null) when there is none. *)
Definition get (name : string) (h : Headers) : option string :=
  match values_of name h with
  | [] => None
  | v :: vs => Some (fold_left (fun acc x => (acc ++ ", " ++ x)%string) vs v)
  end.

(** [headers.set(name, value)]: the first header of that name takes
    the value and the others are removed; appended when absent. *)
Fixpoint set (name value : string) (h : Headers) : Headers :=
  match h with
  | [] => [(name, value)]
  | (k, v) :: r =>
      if name_eq k name
      then (k, value) :: List.filter (fun kv => negb (name_eq (fst kv) name)) r
      else (k, v) :: set name value r
  end.

(** [new Headers(init)]: a copy of the header list. *)
Definition new_Headers (init : Headers) : Headers := init.

Record Response : Type := mkResponse {
  status : Z;
  statusText : string;
  headers : Headers;
  body : option string      (* [None] is a null body *)
}.

(** [response.ok] *)
Definition ok (r : Response) : bool :=
  (200 <=? status r)%Z && (status r <=? 299)%Z.

(** The UTF-8 encoding of U+FEFF, the byte order mark. *)
Definition BOM : string :=
  String (ascii_of_nat 239) (String (ascii_of_nat 187)
    (String (ascii_of_nat 191) EmptyString)).

(** UTF-8 decoding of a body, on texts kept as their UTF-8 bytes: one
    leading byte order mark is dropped. *)
Definition utf8_decode (bytes : string) : string :=
  match bytes with
  | String a (String b (String c rest)) =>
      if Nat.eqb (nat_of_ascii a) 239 && Nat.eqb (nat_of_ascii b) 187 &&
         Nat.eqb (nat_of_ascii c) 191
      then rest
      else bytes
  | _ => bytes
  end.

(** [response.text()]: the body, decoded. *)
Definition text (r : Response) : string :=
  match body r with Some s => utf8_decode s | None => EmptyString end.

(** The first argument of the [Response] constructor. *)
Inductive BodyInit : Type :=
| FromString (s : string)    (* a string: typed text/plain *)
| FromStream (s : string).   (* a ReadableStream: untyped *)

Record ResponseInit : Type := mkInit {
  init_status : Z;
  init_statusText : string;
  init_headers : Headers
}.

Definition default_init : ResponseInit := mkInit 200 EmptyString [].

Definition null_body_status (s : Z) : bool :=
  existsb (Z.eqb s) [101; 103; 204; 205; 304]%Z.

(** The reason-phrase production: HTAB, SP, visible ASCII, obs-text. *)
Definition reason_phrase_char (c : ascii) : bool :=
  let n := nat_of_ascii c in
  Nat.eqb n 9 || Nat.eqb n 32 ||
  ((33 <=? n)%nat && (n <=? 126)%nat) || (128 <=? n)%nat.

Fixpoint reason_phrase (s : string) : bool :=
  match s with
  | EmptyString => true
  | String c r => reason_phrase_char c && reason_phrase r
  end.

Definition RangeError : JsError := mkError None None "RangeError".
Definition TypeError : JsError := mkError None None "TypeError".

(** [new Response(body, init)].  The constructor throws a RangeError
    for a status outside 200..599, a TypeError for a status text that
    is not a reason phrase, and a TypeError for a body given with a
    null-body status.  A string body brings its Content-Type when the
    headers have none. *)
Definition new_Response (b : option BodyInit) (init : ResponseInit)
  : Result Response :=
  if negb ((200 <=? init_status init)%Z && (init_status init <=? 599)%Z)
  then Throw RangeError
  else if negb (reason_phrase (init_statusText init))
  then Throw TypeError
  else
    match b with
    | None =>
        Ok (mkResponse (init_status init) (init_statusText init)
              (new_Headers (init_headers init)) None)
    | Some bi =>
        if null_body_status (init_status init) then Throw TypeError
        else
          match bi with
          | FromString s =>
              let h := new_Headers (init_headers init) in
              let h' := match get "content-type" h with
                        | Some _ => h
                        | None => h ++ [("content-type", "text/plain;charset=UTF-8")]
                        end in
              Ok (mkResponse (init_status init) (init_statusText init) h' (Some s))
          | FromStream s =>
              Ok (mkResponse (init_status init) (init_statusText init)
                    (new_Headers (init_headers init)) (Some s))
          end
    end.

End Fetch.

(** ** What the browser provides to app.js *)
Record Browser : Type := mkBrowser {
  (** [new URL(input)]: [None] when the constructor throws its
      TypeError (which has no [code] property). *)
  new_URL : string -> option URL;
  (** The fragment the HTML parser builds for [div.innerHTML = html]. *)
  parse_fragment : string -> list Dom.Node;
  (** [fetch(url)], as answered at the n-th network call of the page:
      [None] when the promise rejects, which the browser does with a
      TypeError that has no [code] property. *)
  fetch : nat -> string -> option Fetch.Response;
  (** Whether the n-th operation on the cache store ([caches.open]
      followed by [match] or [put]) rejects, and how. *)
  cache_rejects : nat -> option Rejection
}.

(** ** app.js *)
Module App.

(** What gets appended to the content region. *)
Inductive Child : Type :=
| RenderedContent (container : Dom.Node)
| ErrorBlock (className innerHTML : string).

(** Observations of a run, in the order they happen. *)
Inductive Event : Type :=
| EvCacheMatch (url : string)
| EvFetch (url : string)
| EvCachePut (url : string)
| EvReport (code : JsCode) (url : option string).

Record World : Type := mkWorld {
  cache : gmap string Fetch.Response;  (* the store named CACHE_NAME *)
  content : option (list Child);       (* children of #content, if it exists *)
  console : list string;               (* console.error lines *)
  trace : list Event
}.

(** Steps that read and change the world and may throw. *)
Definition M (A : Type) : Type := World -> Result A * World.

Definition ret {A} (a : A) : M A := fun w => (Ok a, w).

Definition bind {A B} (m : M A) (k : A -> M B) : M B :=
  fun w =>
    match m w with
    | (Ok a, w') => k a w'
    | (Throw e, w') => (Throw e, w')
    end.

Definition throw {A} (e : JsError) : M A := fun w => (Throw e, w).

(** [try { m } catch (error) { h error }] *)
Definition try_catch {A} (m : M A) (h : JsError -> M A) : M A :=
  fun w =>
    match m w with
    | (Ok a, w') => (Ok a, w')
    | (Throw e, w') => h e w'
    end.

(** A call of an async function that is not awaited.  The callee has
    no await of its own, so its body runs to its end during the call;
    a throw inside it rejects the promise it returns, which the caller
    drops. *)
Definition unawaited {A} (m : M A) : M unit :=
  fun w => (Ok tt, snd (m w)).

Declare Scope app_scope.
Delimit Scope app_scope with app.
Notation "'let*' x ':=' c 'in' k" := (bind c (fun x => k))
  (at level 10, x name, c at level 100, k at level 200) : app_scope.
Notation "c ';;' k" := (bind c (fun _ => k))
  (at level 100, k at level 200, right associativity) : app_scope.
Local Open Scope app_scope.

(** The world after one more observation, console line, stored
    entry or appended child. *)
Definition with_event (w : World) (ev : Event) : World :=
  mkWorld (cache w) (content w) (console w) (trace w ++ [ev]).

Definition with_console (w : World) (line : string) : World :=
  mkWorld (cache w) (content w) (console w ++ [line]) (trace w).

Definition with_entry (w : World) (url : string) (r : Fetch.Response) : World :=
  mkWorld (<[url := r]> (cache w)) (content w) (console w) (trace w).

Definition with_child (w : World) (c : Child) : World :=
  mkWorld (cache w)
          (match content w with
           | Some l => Some (l ++ [c])
           | None => None
           end)
          (console w) (trace w).

Definition emit (ev : Event) : M unit :=
  fun w => (Ok tt, with_event w ev).

(** [console.error(label, ...)] *)
Definition console_error (label : string) : M unit :=
  fun w => (Ok tt, with_console w label).

Definition is_fetch (ev : Event) : bool :=
  match ev with EvFetch _ => true | _ => false end.

Definition is_report (ev : Event) : bool :=
  match ev with EvReport _ _ => true | _ => false end.

Definition is_cache_op (ev : Event) : bool :=
  match ev with EvCacheMatch _ | EvCachePut _ => true | _ => false end.

(** The number of network calls made so far. *)
Definition fetch_count (w : World) : nat :=
  length (List.filter is_fetch (trace w)).

(** The number of operations on the cache store begun so far. *)
Definition cache_ops (w : World) : nat :=
  length (List.filter is_cache_op (trace w)).

Definition CACHE_NAME : string := "archive-v1".

(** [document.getElementById('content')]: whether the region exists. *)
Definition getElementById_content : M bool :=
  fun w => (Ok (match content w with Some _ => true | None => false end), w).

(** [contentElement.appendChild(child)] *)
Definition appendChild (c : Child) : M unit :=
  fun w => (Ok tt, with_child w c).

(** [ERROR_MAP] *)
Definition ERROR_MAP : list (string * string) :=
  [ ("missing_url", "Please provide a URL parameter in the query string");
    ("invalid_protocol", "Only HTTP/HTTPS URLs are supported");
    ("invalid_url", "The provided URL is invalid");
    ("network_error", "Failed to retrieve archived content");
    ("invalid_content", "The response contained unexpected content");
    ("http_error", "HTTP error occurred while fetching content") ].

(** Property names every object literal inherits from
    [Object.prototype]; their values are functions or objects. *)
Definition Object_prototype_keys : list string :=
  [ "constructor"; "__proto__"; "hasOwnProperty"; "isPrototypeOf";
    "propertyIsEnumerable"; "toLocaleString"; "toString"; "valueOf";
    "__defineGetter__"; "__defineSetter__"; "__lookupGetter__";
    "__lookupSetter__" ].

(** The value of a property read. *)
Inductive JsValue : Type :=
| JString (s : string)
| JObject            (* a function or an object: truthy, not a string *)
| JUndefined.

Fixpoint own_property (key : string) (o : list (string * string))
  : option string :=
  match o with
  | [] => None
  | (k, v) :: r => if String.eqb k key then Some v else own_property key r
  end.

(** [ERROR_MAP[code]] *)
Definition ERROR_MAP_get (key : string) : JsValue :=
  match own_property key ERROR_MAP with
  | Some v => JString v
  | None =>
      if existsb (String.eqb key) Object_prototype_keys then JObject
      else JUndefined
  end.

(** The replacement table of [escapeHTML]. *)
Definition charsToReplace (tag : ascii) : option string :=
  if Ascii.eqb tag "&" then Some "&amp;"
  else if Ascii.eqb tag "<" then Some "&lt;"
  else if Ascii.eqb tag ">" then Some "&gt;"
  else if Ascii.eqb tag "'" then Some "&#39;"
  else if Ascii.eqb tag (ascii_of_nat 34) then Some "&quot;"
  else None.

(** [escapeHTML(str)]: the global replace of the five characters
    of the table, each by its entry. *)
Fixpoint escapeHTML (str : string) : string :=
  match str with
  | EmptyString => EmptyString
  | String c r =>
      match charsToReplace c with
      | Some e => (e ++ escapeHTML r)%string
      | None => String c (escapeHTML r)
      end
  end.

Definition nl : string := String (ascii_of_nat 10) EmptyString.

(** The template literal assigned to [errorDiv.innerHTML]. *)
Definition error_markup (code message : string) (url : option string)
  : string :=
  (nl ++ "        <strong>Error:</strong> " ++ escapeHTML code ++ "<br>" ++
   nl ++ "        <span>" ++ escapeHTML message ++ "</span>" ++
   nl ++ "        " ++
   (match url with
    | Some u =>
        if Js.truthy u
        then "<br><strong>URL:</strong> " ++ escapeHTML u
        else EmptyString
    | None => EmptyString
    end) ++
   nl ++ "    ")%string.

(** [value || fallback] on a property read. *)
Definition or_default (v : JsValue) (fallback : string) : JsValue :=
  match v with
  | JString m => if Js.truthy m then JString m else JString fallback
  | JObject => JObject
  | JUndefined => JString fallback
  end.

(** [displayError(code, details = {})]; [url] is [details.url].  A
    code or a message that is not a string has no [replace] method, and
    [escapeHTML] throws a TypeError on it; the template escapes the code
    first. *)
Definition displayError (code : JsCode) (url : option string) : M unit :=
  emit (EvReport code url);;
  match code with
  | CodeNumber _ => throw Fetch.TypeError
  | CodeString code =>
      let message := or_default (ERROR_MAP_get code) "An unknown error occurred" in
      match message with
      | JString message =>
          let errorDiv := ErrorBlock "error" (error_markup code message url) in
          let* contentElement := getElementById_content in
          if contentElement then appendChild errorDiv
          else console_error "Content container not found"
      | _ => throw Fetch.TypeError
      end
  end.

Section Pipeline.

Context (B : Browser).

(** [fetch(url)]: the next network call. *)
Definition net_fetch (url : string) : M Fetch.Response :=
  fun w =>
    match fetch B (fetch_count w) url with
    | Some r => (Ok r, with_event w (EvFetch url))
    | None => (Throw Fetch.TypeError, with_event w (EvFetch url))
    end.

(** [(await caches.open(CACHE_NAME)).match(url)] *)
Definition cache_match (url : string) : M (option Fetch.Response) :=
  fun w =>
    match cache_rejects B (cache_ops w) with
    | Some r => (Throw (rejection_error r), with_event w (EvCacheMatch url))
    | None => (Ok (cache w !! url), with_event w (EvCacheMatch url))
    end.

(** [(await caches.open(CACHE_NAME)).put(url, response)] *)
Definition cache_put (url : string) (r : Fetch.Response) : M unit :=
  fun w =>
    match cache_rejects B (cache_ops w) with
    | Some rej => (Throw (rejection_error rej), with_event w (EvCachePut url))
    | None => (Ok tt, with_event (with_entry w url r) (EvCachePut url))
    end.

(** [validateUrl(input)] *)
Definition validateUrl (input : string) : M string :=
  try_catch
    (let* url :=
       match new_URL B input with
       | Some u => ret u
       | None => throw Fetch.TypeError
       end in
     if negb (Js.startsWith "http" (protocol url))
     then throw (mkError (Some (CodeString "invalid_protocol")) None
                         "Invalid protocol")
     else ret (href url))
    (fun error =>
       console_error "Invalid URL:";;
       if negb (code_truthy (code error))
       then throw (mkError (Some (CodeString "invalid_url")) (status error)
                           (message error))
       else throw error).

(** [buildArchiveUrl(url)] *)
Definition buildArchiveUrl (url : string) : string :=
  let base := "https://archive.today/?run=1&url=" in
  (base ++ Js.encodeURIComponent url)%string.

(** [fetchArchiveContent(url)] *)
Definition fetchArchiveContent (url : string) : M string :=
  try_catch
    (let* response := net_fetch url in
     if negb (Fetch.ok response)
     then throw (mkError (Some (CodeString "http_error"))
                         (Some (Fetch.status response))
                         ("HTTP error! status: " ++
                          Js.number_toString (Fetch.status response)))
     else
       let contentType := Fetch.get "content-type" (Fetch.headers response) in
       if negb (Js.truthy_opt contentType) ||
          negb (Js.includes "text/html" (default EmptyString contentType))
       then throw (mkError (Some (CodeString "invalid_content")) None
                           "Invalid content type")
       else ret (Fetch.text response))
    (fun error => console_error "Fetch failed:";; throw error).

(** The selectors of the two [querySelectorAll] calls. *)
Definition sel_scripts : Dom.Selector := [Dom.TypeSel "script"].
Definition sel_styles : Dom.Selector :=
  [Dom.TypeSel "style"; Dom.TypeAttrSel "link" "rel" "stylesheet"].

(** The container of [renderContentSafely] after both removals. *)
Definition sanitize (container : Dom.Node) : Dom.Node :=
  let scripts := Dom.querySelectorAll sel_scripts container in
  let container1 := Dom.forEach_remove scripts container in
  let styles := Dom.querySelectorAll sel_styles container1 in
  Dom.forEach_remove styles container1.

(** [renderContentSafely(html)] *)
Definition renderContentSafely (html : string) : M unit :=
  if negb (Js.truthy html) then console_error "No content to render"
  else
    let container :=
      Dom.set_children (parse_fragment B html) (Dom.createElement 0 "div") in
    let container := sanitize container in
    let* contentElement := getElementById_content in
    if contentElement then appendChild (RenderedContent container)
    else console_error "Content container not found".

(** [cacheResponse(url, content)] *)
Definition cacheResponse (url content : string) : M unit :=
  let* response :=
    match Fetch.new_Response (Some (Fetch.FromString content)) Fetch.default_init with
    | Ok r => ret r
    | Throw e => throw e
    end in
  cache_put url response.

(** [getCachedResponse(url)] *)
Definition getCachedResponse (url : string) : M (option Fetch.Response) :=
  cache_match url.

(** [fetchWithCache(url)] *)
Definition fetchWithCache (url : string) : M string :=
  let* cachedResponse := getCachedResponse url in
  match cachedResponse with
  | Some r => ret (Fetch.text r)
  | None =>
      let* freshContent := fetchArchiveContent url in
      cacheResponse url freshContent;;
      ret freshContent
  end.

(** [initializeApp()]; [userUrl] is [params.get('url')], [None] when
    the parameter is absent.  The registration of the service worker
    that follows the try block does not touch the world modelled
    here. *)
Definition initializeApp (userUrl : option string) : M unit :=
  match userUrl with
  | Some u =>
      if Js.truthy u then
        try_catch
          (let* validatedUrl := validateUrl u in
           let archiveUrl := buildArchiveUrl validatedUrl in
           let* content := fetchWithCache archiveUrl in
           unawaited (renderContentSafely content))
          (fun error =>
             displayError (code_or (code error) "network_error") (Some u))
      else displayError "missing_url" None
  | None => displayError "missing_url" None
  end.

(** The elements the renderer removes: those one of its two selectors
    matches. *)
Definition removed_by_sanitizer (n : Dom.Node) : bool :=
  Dom.matches sel_scripts n || Dom.matches sel_styles n.

(** The awaited stages of the try block, up to the content handed
    to the renderer. *)
Definition pipeline (u : string) : M string :=
  let* validatedUrl := validateUrl u in
  fetchWithCache (buildArchiveUrl validatedUrl).

End Pipeline.

(** Whether the response declares an HTML content type, by the test
    [fetchArchiveContent] makes on the header. *)
Definition declares_html (r : Fetch.Response) : bool :=
  match Fetch.get "content-type" (Fetch.headers r) with
  | Some contentType =>
      Js.truthy contentType && Js.includes "text/html" contentType
  | None => false
  end.

(** The [code] of what a step threw, if it threw. *)
Definition thrown_code {A} (r : Result A) : option JsCode :=
  match r with
  | Throw e => code e
  | Ok _ => None
  end.

(** The codes a failure of the pipeline can reach the reporter with. *)
Definition pipeline_codes : list string :=
  ["invalid_url"; "invalid_protocol"; "http_error"; "invalid_content";
   "network_error"].

(** The five entities [escapeHTML] writes, without their ampersand. *)
Definition entity_tails : list string := ["amp;"; "lt;"; "gt;"; "#39;"; "quot;"].

(** Every ampersand of the text opens one of the five entities. *)
Fixpoint amp_opens_entity (s : string) : bool :=
  match s with
  | EmptyString => true
  | String c r =>
      (if Ascii.eqb c "&"
       then existsb (fun e => String.prefix e r) entity_tails
       else true)
      && amp_opens_entity r
  end.

(** Whether [escapeHTML] replaces the character. *)
Definition replaced (c : ascii) : bool :=
  match charsToReplace c with
  | Some _ => true
  | None => false
  end.

(** Whether the failure carries a number as its code, one that is not
    zero: the code the catch block then hands to the reporter. *)
Definition carries_number (e : JsError) : bool :=
  match code e with
  | Some (CodeNumber n) => negb (Z.eqb n 0)
  | _ => false
  end.

(** The code the catch block hands to the reporter: one of the codes of
    the pipeline, unless the failure carries a number. *)
Definition reported_code_ok (e : JsError) : Prop :=
  (carries_number e = false /\
   exists c, code_or (code e) "network_error" = CodeString c /\ In c pipeline_codes) \/
  (carries_number e = true /\
   exists n, code_or (code e) "network_error" = CodeNumber n).

(** White space between the parts of a header value or of a list of
    words: tab, line feed, form feed, carriage return, space. *)
Definition is_space (c : ascii) : bool :=
  existsb (Nat.eqb (nat_of_ascii c)) [9; 10; 12; 13; 32]%nat.

Fixpoint trim_start (s : string) : string :=
  match s with
  | EmptyString => EmptyString
  | String c r => if is_space c then trim_start r else s
  end.

Fixpoint trim_end (s : string) : string :=
  match s with
  | EmptyString => EmptyString
  | String c r =>
      match trim_end r with
      | EmptyString => if is_space c then EmptyString else String c EmptyString
      | r' => String c r'
      end
  end.

(** What precedes the first semicolon. *)
Fixpoint before_semicolon (s : string) : string :=
  match s with
  | EmptyString => EmptyString
  | String c r => if Ascii.eqb c ";" then EmptyString else String c (before_semicolon r)
  end.

(** The essence of a content type as it is spelled: type and subtype,
    without parameters and surrounding white space. *)
Definition essence (contentType : string) : string :=
  trim_end (trim_start (before_semicolon contentType)).

(** An HTML media type, in the spec's words, as media types are read:
    the essence, compared without regard to case, is [text/html].  This
    is the notion of the specification, not the test the code makes
    ([declares_html]). *)
Definition html_media_type (contentType : string) : bool :=
  String.eqb (Js.lower (essence contentType)) "text/html".

(** The words of a space-separated list. *)
Fixpoint words_from (current : string) (s : string) : list string :=
  match s with
  | EmptyString =>
      match current with EmptyString => [] | _ => [current] end
  | String c r =>
      if is_space c
      then match current with
           | EmptyString => words_from EmptyString r
           | _ => current :: words_from EmptyString r
           end
      else words_from (current ++ String c EmptyString) r
  end.

Definition words (s : string) : list string := words_from EmptyString s.

(** A stylesheet link, in the spec's words, as link types are read: a
    [link] element whose [rel] attribute lists the word [stylesheet],
    compared without regard to case.  This is the notion of the
    specification, not the selector of the code. *)
Definition stylesheet_link (n : Dom.Node) : bool :=
  match n with
  | Dom.Text _ => false
  | Dom.Element _ _ ln attrs _ =>
      String.eqb ln "link" &&
      match Dom.getAttribute "rel" attrs with
      | Some rel => existsb (String.eqb "stylesheet") (words (Js.lower rel))
      | None => false
      end
  end.

(** The elements the specification wants gone: script elements, style
    elements and stylesheet links. *)
Definition script_style_or_stylesheet_link (n : Dom.Node) : bool :=
  Dom.matches sel_scripts n || Dom.matches [Dom.TypeSel "style"] n ||
  stylesheet_link n.

(** The children appended to the content region between two worlds. *)
Definition appended (w w' : World) (added : list Child) : Prop :=
  exists l, content w = Some l /\ content w' = Some (l ++ added).

End App.

(** ** service-worker.js *)
Module ServiceWorker.

Record Request : Type := mkRequest { url : string }.

(** What becomes of a fetch event. *)
Inductive Outcome : Type :=
| PassThrough                               (* respondWith was not called *)
| RespondWith (r : Result Fetch.Response).  (* the promise given to respondWith *)

Section Worker.

(** [fetch(request)] inside the worker: the response of the network,
    [None] when the promise rejects. *)
Context (network : Request -> option Fetch.Response).

(** [handleRequest(request)] *)
Definition handleRequest (request : Request) : Result Fetch.Response :=
  match network request with
  | None => Throw Fetch.TypeError
  | Some response =>
      let headers := Fetch.new_Headers (Fetch.headers response) in
      let headers := Fetch.set "Access-Control-Allow-Origin" "*" headers in
      Fetch.new_Response
        (match Fetch.body response with
         | Some s => Some (Fetch.FromStream s)
         | None => None
         end)
        (Fetch.mkInit (Fetch.status response) (Fetch.statusText response) headers)
  end.

(** The listener registered for [fetch] events. *)
Definition on_fetch (request : Request) : Outcome :=
  if Js.startsWith "https://archive.today/" (url request)
  then RespondWith (handleRequest request)
  else PassThrough.

End Worker.

End ServiceWorker.

(** ** A sample browser, for evaluating the code on concrete inputs *)
Module Sample.

(** Inputs of [new URL] with the protocol and href the URL standard
    gives them; any other input is taken as unparseable. *)
Definition url_table : list (string * URL) :=
  [ ("https://example.com/page", mkURL "https:" "https://example.com/page");
    ("HTTP://Example.COM:80/a", mkURL "http:" "http://example.com/a");
    ("http://example.com/a", mkURL "http:" "http://example.com/a");
    ("httpx://example.com", mkURL "httpx:" "httpx://example.com");
    ("ftp://x", mkURL "ftp:" "ftp://x/");
    ("ftp://x/", mkURL "ftp:" "ftp://x/");
    ("file:///etc/passwd", mkURL "file:" "file:///etc/passwd");
    ("javascript:alert(1)", mkURL "javascript:" "javascript:alert(1)") ].

Fixpoint lookup_url (t : list (string * URL)) (input : string) : option URL :=
  match t with
  | [] => None
  | (k, u) :: r => if String.eqb k input then Some u else lookup_url r input
  end.

Definition page : string := "https://example.com/page".

Definition archive_key : string :=
  "https://archive.today/?run=1&url=https%3A%2F%2Fexample.com%2Fpage".

Definition page_html : string := "<p>hi</p><script>x()</script>".

(** The fragment of [page_html]. *)
Definition page_fragment : list Dom.Node :=
  [ Dom.Element 1 Dom.HTML "p" [] [Dom.Text "hi"];
    Dom.Element 2 Dom.HTML "script" [] [Dom.Text "x()"] ].

Definition parse (html : string) : list Dom.Node :=
  if String.eqb html page_html then page_fragment else [Dom.Text html].

(** A browser whose network answers every call for [archive_key] with
    [answer] and fails every other call, and whose cache store never
    rejects. *)
Definition browser (answer : option Fetch.Response) : Browser :=
  mkBrowser (lookup_url url_table) parse
    (fun _ url => if String.eqb url archive_key then answer else None)
    (fun _ => None).

(** A browser that denies the page its cache store: every operation on
    it rejects with a SecurityError. *)
Definition storage_denied : Browser :=
  mkBrowser (lookup_url url_table) parse
    (fun _ _ => None)
    (fun _ => Some (RejectDOMException "SecurityError" 18)).

(** A page whose bytes start with two byte order marks. *)
Definition bom_response : Fetch.Response :=
  Fetch.mkResponse 200 "OK" [("content-type", "text/html")]
    (Some (Fetch.BOM ++ Fetch.BOM ++ "<p>x</p>")%string).

Definition html_response : Fetch.Response :=
  Fetch.mkResponse 203 "Non-Authoritative Information"
    [("content-type", "text/html; charset=utf-8"); ("etag", "abc")]
    (Some page_html).

Definition empty_response : Fetch.Response :=
  Fetch.mkResponse 200 "OK" [("content-type", "text/html")] (Some EmptyString).

(** A 404 that declares no content type. *)
Definition not_found : Fetch.Response :=
  Fetch.mkResponse 404 "Not Found" [] (Some "gone").

(** A fresh page: empty cache store, empty content region. *)
Definition world0 : App.World := App.mkWorld ∅ (Some []) [] [].

(** The opaque response a worker gets for a no-cors request. *)
Definition opaque : Fetch.Response :=
  Fetch.mkResponse 0 EmptyString [] None.

Definition archive_image : ServiceWorker.Request :=
  ServiceWorker.mkRequest "https://archive.today/abc/image.png".

Definition archive_response : Fetch.Response :=
  Fetch.mkResponse 200 "OK"
    [("Content-Type", "text/html"); ("access-control-allow-origin", "null")]
    (Some page_html).

(** [<svg><style><g></g></style></svg>] in a container: inside SVG the
    content of style is markup, so the style element has a child. *)
Definition svg_container : Dom.Node :=
  Dom.Element 0 Dom.HTML "div" []
    [ Dom.Element 1 Dom.SVG "svg" []
        [ Dom.Element 2 Dom.SVG "style" []
            [ Dom.Element 3 Dom.SVG "g" [] [] ] ] ].

End Sample.

Import App.
Local Open Scope app_scope.

(** * Properties *)

(** The combinators of the step monad, unfolded together. *)
Create HintDb steps.
#[local] Hint Unfold try_catch bind throw ret unawaited : steps.

Ltac run_steps := autounfold with steps.

(** The request URL built for a page: the whole page URL is one
    percent-encoded query value. *)
Example buildArchiveUrl_page :
  buildArchiveUrl Sample.page = Sample.archive_key.
Proof. reflexivity. Qed.

(** ** Texts *)
Section Strings.

Lemma prefix_app (n s t : string) :
  String.prefix n s = true -> String.prefix n (s ++ t)%string = true.
Proof.
  revert s. induction n as [|a n IH]; intros s;
    [destruct (s ++ t)%string; reflexivity|].
  destruct s as [|b s]; [discriminate|].
  change (String b s ++ t)%string with (String b (s ++ t)%string).
  cbn [String.prefix].
  destruct (ascii_dec a b); [apply IH | discriminate].
Qed.

Lemma append_cons (c : ascii) (s t : string) :
  (String c s ++ t)%string = String c (s ++ t)%string.
Proof. reflexivity. Qed.

Lemma append_nil_l (t : string) : (EmptyString ++ t)%string = t.
Proof. reflexivity. Qed.

Lemma includes_cons (n : string) (c : ascii) (s : string) :
  Js.includes n (String c s) = String.prefix n (String c s) || Js.includes n s.
Proof. reflexivity. Qed.

Lemma includes_app_l (n s t : string) :
  Js.includes n s = true -> Js.includes n (s ++ t)%string = true.
Proof.
  induction s as [|c s IH].
  - cbn [Js.includes]. rewrite orb_false_r. intros H.
    destruct n; [|discriminate]. destruct t; reflexivity.
  - rewrite includes_cons. intros H.
    change (String c s ++ t)%string with (String c (s ++ t)%string).
    rewrite includes_cons.
    apply orb_true_iff in H as [H|H].
    + apply (prefix_app n (String c s) t) in H.
      change (String c s ++ t)%string with (String c (s ++ t)%string) in H.
      rewrite H. reflexivity.
    + rewrite (IH H). apply orb_true_r.
Qed.

Lemma includes_app_r (n p s : string) :
  Js.includes n s = true -> Js.includes n (p ++ s)%string = true.
Proof.
  intros H. induction p as [|c p IH]; [exact H|].
  change (String c p ++ s)%string with (String c (p ++ s)%string).
  rewrite includes_cons, IH. apply orb_true_r.
Qed.

Lemma append_assoc (a b c : string) :
  ((a ++ b) ++ c)%string = (a ++ b ++ c)%string.
Proof.
  induction a as [|x a IH]; [reflexivity|].
  rewrite !append_cons, IH. reflexivity.
Qed.

Lemma includes_nonempty (n s : string) :
  Js.truthy n = true -> Js.includes n s = true -> Js.truthy s = true.
Proof.
  destruct n; [discriminate|]. destruct s; [discriminate|reflexivity].
Qed.

Lemma string_length_append (a b : string) :
  String.length (a ++ b)%string = (String.length a + String.length b)%nat.
Proof.
  induction a as [|c a IH]; [reflexivity|].
  rewrite append_cons. cbn [String.length]. rewrite IH. reflexivity.
Qed.

End Strings.

(** ** The URL validator *)
Section Validator.

Context (B : Browser).

(** An unparseable input fails with [invalid_url]. *)
Lemma validateUrl_unparseable (input : string) (w : World) :
  new_URL B input = None ->
  fst (validateUrl B input w) =
    Throw (mkError (Some (CodeString "invalid_url")) None "TypeError").
Proof.
  intros Hp. unfold validateUrl. run_steps.
  rewrite Hp. reflexivity.
Qed.

(** A parsed input whose protocol does not start with [http] fails
    with [invalid_protocol]. *)
Lemma validateUrl_other_protocol (input : string) (u : URL) (w : World) :
  new_URL B input = Some u ->
  Js.startsWith "http" (protocol u) = false ->
  fst (validateUrl B input w) =
    Throw (mkError (Some (CodeString "invalid_protocol")) None "Invalid protocol").
Proof.
  intros Hp Hs. unfold validateUrl. run_steps.
  rewrite Hp, Hs. reflexivity.
Qed.

(** A parsed input whose protocol starts with [http] is accepted, the
    world left as it was. *)
Lemma validateUrl_accepts (input : string) (u : URL) (w : World) :
  new_URL B input = Some u ->
  Js.startsWith "http" (protocol u) = true ->
  validateUrl B input w = (Ok (href u), w).
Proof.
  intros Hp Hs. unfold validateUrl. run_steps.
  rewrite Hp, Hs. reflexivity.
Qed.

(** The three cases above are all there is. *)
Lemma validateUrl_cases (input : string) (w : World) :
  (exists u, new_URL B input = Some u /\
             Js.startsWith "http" (protocol u) = true /\
             validateUrl B input w = (Ok (href u), w)) \/
  (exists e, fst (validateUrl B input w) = Throw e /\
             (code e = Some (CodeString "invalid_url") \/ code e = Some (CodeString "invalid_protocol")) /\
             trace (snd (validateUrl B input w)) = trace w /\
             content (snd (validateUrl B input w)) = content w /\
             cache (snd (validateUrl B input w)) = cache w).
Proof.
  unfold validateUrl. run_steps.
  destruct (new_URL B input) as [u|] eqn:Hp; cbn.
  - destruct (Js.startsWith "http" (protocol u)) eqn:Hs; cbn.
    + left. exists u. auto.
    + right. eexists. repeat split; auto.
  - right. eexists. repeat split; auto.
Qed.

End Validator.

(** C1, at the failing input: a parsed URL whose scheme is [httpx], which
    is neither http nor https, is accepted by the validator and its href
    returned; the test on the protocol is a prefix test. *)
Theorem C1_validateUrl_accepts_httpx (B : Browser) (input : string) (u : URL) (w : World) :
  new_URL B input = Some u ->
  protocol u = "httpx:" ->
  validateUrl B input w = (Ok (href u), w).
Proof.
  intros Hp Hs. apply validateUrl_accepts; [exact Hp|].
  rewrite Hs. reflexivity.
Qed.

Lemma C1_validateUrl_accepts_httpx_witness :
  validateUrl (Sample.browser None) "httpx://example.com" Sample.world0 =
    (Ok "httpx://example.com", Sample.world0).
Proof.
  exact (C1_validateUrl_accepts_httpx (Sample.browser None) "httpx://example.com"
           (mkURL "httpx:" "httpx://example.com") Sample.world0 eq_refl eq_refl).
Defined.

(** The validator returns the serialisation [href] of the parsed URL and
    tests nothing but its protocol.  So, for a URL parser that reparses a
    serialised URL to a URL of the same protocol and href, an accepted
    input's result is accepted again and returned as it is.  Whether the
    browser's parser has that property is not decided by this code. *)
Lemma validateUrl_reaccepts_stable_href (B : Browser) :
  (forall s u, new_URL B s = Some u ->
     exists u', new_URL B (href u) = Some u' /\
                protocol u' = protocol u /\ href u' = href u) ->
  forall input v w w',
    validateUrl B input w = (Ok v, w') ->
    forall w2, validateUrl B v w2 = (Ok v, w2).
Proof.
  intros Hstable input v w w' Hv w2.
  destruct (validateUrl_cases B input w) as [(u & Hp & Hs & Hok) | (e & He & _)].
  - rewrite Hok in Hv. injection Hv as <- <-.
    destruct (Hstable _ _ Hp) as (u' & Hp' & Hproto & Hhref).
    rewrite <- Hhref. apply validateUrl_accepts; [rewrite Hhref; exact Hp'|].
    rewrite Hproto. exact Hs.
  - rewrite Hv in He. discriminate.
Qed.

(** ** The cache-first fetcher *)
Section Fetcher.

Context (B : Browser).

Lemma fetch_count_with_event (w : World) (ev : Event) :
  fetch_count (with_event w ev) =
    if is_fetch ev then S (fetch_count w) else fetch_count w.
Proof.
  unfold fetch_count, with_event. cbn [trace].
  rewrite List.filter_app, List.length_app. cbn.
  destruct (is_fetch ev); cbn; lia.
Qed.

Lemma fetch_count_with_entry (w : World) (url : string) (r : Fetch.Response) :
  fetch_count (with_entry w url r) = fetch_count w.
Proof. reflexivity. Qed.

Lemma fetch_count_with_console (w : World) (line : string) :
  fetch_count (with_console w line) = fetch_count w.
Proof. reflexivity. Qed.

Lemma fetch_count_with_child (w : World) (c : Child) :
  fetch_count (with_child w c) = fetch_count w.
Proof. reflexivity. Qed.

Lemma cache_ops_with_event (w : World) (ev : Event) :
  cache_ops (with_event w ev) =
    if is_cache_op ev then S (cache_ops w) else cache_ops w.
Proof.
  unfold cache_ops, with_event. cbn [trace].
  rewrite List.filter_app, List.length_app. cbn.
  destruct (is_cache_op ev); cbn; lia.
Qed.

Lemma cache_ops_with_console (w : World) (line : string) :
  cache_ops (with_console w line) = cache_ops w.
Proof. reflexivity. Qed.

(** [fetchArchiveContent], case by case on the answer of the network. *)
Lemma fetchArchiveContent_spec (url : string) (w : World) :
  fetchArchiveContent B url w =
    let w1 := with_event w (EvFetch url) in
    match fetch B (fetch_count w) url with
    | None => (Throw Fetch.TypeError, with_console w1 "Fetch failed:")
    | Some r =>
        if negb (Fetch.ok r)
        then (Throw (mkError (Some (CodeString "http_error")) (Some (Fetch.status r))
                             ("HTTP error! status: " ++
                              Js.number_toString (Fetch.status r))),
              with_console w1 "Fetch failed:")
        else if declares_html r
        then (Ok (Fetch.text r), w1)
        else (Throw (mkError (Some (CodeString "invalid_content")) None
                             "Invalid content type"),
              with_console w1 "Fetch failed:")
    end.
Proof.
  unfold fetchArchiveContent, net_fetch, declares_html. run_steps.
  destruct (fetch B (fetch_count w) url) as [r|]; [|reflexivity].
  destruct (Fetch.ok r); cbn [negb]; [|reflexivity].
  destruct (Fetch.get "content-type" (Fetch.headers r)) as [ct|]; cbn; [|reflexivity].
  destruct (Js.truthy ct); cbn; [|reflexivity].
  destruct (Js.includes "text/html" ct); reflexivity.
Qed.

(** What [cacheResponse] does: it stores the response
    [new Response(content)] builds, unless the cache store rejects. *)
Lemma cacheResponse_spec (url content : string) (w : World) :
  cacheResponse B url content w =
    match cache_rejects B (cache_ops w) with
    | Some rej => (Throw (rejection_error rej), with_event w (EvCachePut url))
    | None =>
        (Ok tt,
         with_event
           (with_entry w url
              (Fetch.mkResponse 200 EmptyString
                 [("content-type", "text/plain;charset=UTF-8")] (Some content)))
           (EvCachePut url))
    end.
Proof.
  unfold cacheResponse, cache_put. run_steps. cbn.
  destruct (cache_rejects B (cache_ops w)); reflexivity.
Qed.

(** [fetchWithCache], case by case on the cache lookup. *)
Lemma fetchWithCache_spec (url : string) (w : World) :
  fetchWithCache B url w =
    let w0 := with_event w (EvCacheMatch url) in
    match cache_rejects B (cache_ops w) with
    | Some rej => (Throw (rejection_error rej), w0)
    | None =>
        match cache w !! url with
        | Some r => (Ok (Fetch.text r), w0)
        | None =>
            match fetchArchiveContent B url w0 with
            | (Ok content, w1) =>
                match cache_rejects B (cache_ops w1) with
                | Some rej =>
                    (Throw (rejection_error rej), with_event w1 (EvCachePut url))
                | None =>
                    (Ok content,
                     with_event
                       (with_entry w1 url
                          (Fetch.mkResponse 200 EmptyString
                             [("content-type", "text/plain;charset=UTF-8")]
                             (Some content)))
                       (EvCachePut url))
                end
            | (Throw e, w1) => (Throw e, w1)
            end
        end
    end.
Proof.
  unfold fetchWithCache, getCachedResponse, cache_match. run_steps. cbn zeta.
  destruct (cache_rejects B (cache_ops w)); [reflexivity|].
  destruct (cache w !! url) as [r|]; [reflexivity|].
  destruct (fetchArchiveContent B url (with_event w (EvCacheMatch url)))
    as [[c|e] w1]; [|reflexivity].
  fold (bind (cacheResponse B url c) (fun _ => ret c)).
  unfold bind. rewrite cacheResponse_spec.
  destruct (cache_rejects B (cache_ops w1)); reflexivity.
Qed.

(** What a network retrieval does to the world, whatever its outcome. *)
Lemma fetchArchiveContent_world (url : string) (w : World) :
  trace (snd (fetchArchiveContent B url w)) = trace w ++ [EvFetch url] /\
  cache (snd (fetchArchiveContent B url w)) = cache w /\
  content (snd (fetchArchiveContent B url w)) = content w /\
  console (snd (fetchArchiveContent B url w)) =
    console w ++ match fst (fetchArchiveContent B url w) with
                 | Ok _ => []
                 | Throw _ => ["Fetch failed:"]
                 end.
Proof.
  rewrite fetchArchiveContent_spec. cbn zeta.
  destruct (fetch B (fetch_count w) url) as [r|].
  - destruct (Fetch.ok r); cbn [negb].
    + destruct (declares_html r); cbn; rewrite ?app_nil_r; auto.
    + cbn. auto.
  - cbn. auto.
Qed.

End Fetcher.

(** ** Content types *)
Section MediaTypes.

Lemma trim_end_prefix (s : string) : exists t, s = (trim_end s ++ t)%string.
Proof.
  induction s as [|c r [t IH]]; [exists EmptyString; reflexivity|].
  cbn [trim_end]. destruct (trim_end r) as [|a r'] eqn:E.
  - destruct (is_space c).
    + exists (String c r). reflexivity.
    + exists r. reflexivity.
  - exists t. rewrite append_cons, <- IH. reflexivity.
Qed.

Lemma trim_start_suffix (s : string) : exists p, s = (p ++ trim_start s)%string.
Proof.
  induction s as [|c r [p IH]]; [exists EmptyString; reflexivity|].
  cbn [trim_start]. destruct (is_space c).
  - exists (String c p). rewrite append_cons, <- IH. reflexivity.
  - exists EmptyString. reflexivity.
Qed.

Lemma before_semicolon_prefix (s : string) :
  exists t, s = (before_semicolon s ++ t)%string.
Proof.
  induction s as [|c r [t IH]]; [exists EmptyString; reflexivity|].
  cbn [before_semicolon]. destruct (Ascii.eqb c ";").
  - exists (String c r). reflexivity.
  - exists t. rewrite append_cons, <- IH. reflexivity.
Qed.

(** What the essence of a content type contains, the content type
    contains. *)
Lemma includes_essence (n ct : string) :
  Js.includes n (essence ct) = true -> Js.includes n ct = true.
Proof.
  unfold essence. intros H.
  destruct (trim_end_prefix (trim_start (before_semicolon ct))) as [t1 H1].
  pose proof (includes_app_l n _ t1 H) as H'. rewrite <- H1 in H'.
  destruct (trim_start_suffix (before_semicolon ct)) as [p2 H2].
  pose proof (includes_app_r n p2 _ H') as H''. rewrite <- H2 in H''.
  destruct (before_semicolon_prefix ct) as [t3 H3].
  pose proof (includes_app_l n _ t3 H'') as H'''. rewrite <- H3 in H'''.
  exact H'''.
Qed.

(** A content type whose essence is spelled [text/html] passes the test
    of the code. *)
Lemma essence_html_declares (r : Fetch.Response) (ct : string) :
  Fetch.get "content-type" (Fetch.headers r) = Some ct ->
  essence ct = "text/html" ->
  declares_html r = true.
Proof.
  intros Hget He. unfold declares_html. rewrite Hget.
  assert (Hin : Js.includes "text/html" ct = true).
  { apply includes_essence. rewrite He. reflexivity. }
  rewrite Hin, (includes_nonempty "text/html" ct eq_refl Hin). reflexivity.
Qed.

(** Where the test of the code and the notion of the specification part:
    an HTML media type spelled with capitals is refused, and a type that
    is not HTML but mentions [text/html] in a parameter is accepted. *)
Lemma contains_test_is_not_media_type :
  (html_media_type "TEXT/HTML" = true /\
   Js.includes "text/html" "TEXT/HTML" = false) /\
  (html_media_type "text/plain; note=text/html" = false /\
   Js.includes "text/html" "text/plain; note=text/html" = true).
Proof. repeat split; reflexivity. Qed.

End MediaTypes.

(** C7, as amended: the status is tested first.  A response with a
    failure status fails with [http_error] whatever its content type.
    For a response with a success status, the fetch fails with
    [invalid_content] when the declared content type is missing, and
    when it is not an HTML media type and does not mention [text/html]
    either; when the content type is an HTML media type whose essence is
    spelled [text/html], the body is returned as text. *)
Theorem C7_invalid_content_on_ok_response (B : Browser) (url : string) (w : World)
    (r : Fetch.Response) :
  fetch B (fetch_count w) url = Some r ->
  (Fetch.ok r = false ->
     thrown_code (fst (fetchArchiveContent B url w)) = Some (CodeString "http_error")) /\
  (Fetch.ok r = true ->
     (Fetch.get "content-type" (Fetch.headers r) = None ->
        thrown_code (fst (fetchArchiveContent B url w)) =
          Some (CodeString "invalid_content")) /\
     (forall ct,
        Fetch.get "content-type" (Fetch.headers r) = Some ct ->
        html_media_type ct = false ->
        Js.includes "text/html" ct = false ->
        thrown_code (fst (fetchArchiveContent B url w)) =
          Some (CodeString "invalid_content")) /\
     (forall ct,
        Fetch.get "content-type" (Fetch.headers r) = Some ct ->
        html_media_type ct = true ->
        essence ct = "text/html" ->
        fst (fetchArchiveContent B url w) = Ok (Fetch.text r))).
Proof.
  intros Hf. rewrite fetchArchiveContent_spec. cbn zeta. rewrite Hf.
  split.
  - intros Hok. rewrite Hok. reflexivity.
  - intros Hok. rewrite Hok. cbn [negb]. split; [|split].
    + intros Hnone. unfold declares_html. rewrite Hnone. reflexivity.
    + intros ct Hget _ Hin. unfold declares_html. rewrite Hget, Hin, andb_false_r.
      reflexivity.
    + intros ct Hget _ He. rewrite (essence_html_declares r ct Hget He). reflexivity.
Qed.

Lemma C7_invalid_content_on_ok_response_witness :
  Fetch.ok Sample.html_response = true /\
  html_media_type "text/html; charset=utf-8" = true /\
  fst (fetchArchiveContent (Sample.browser (Some Sample.html_response))
         Sample.archive_key Sample.world0) = Ok Sample.page_html.
Proof.
  split; [reflexivity|]. split; [reflexivity|].
  destruct (C7_invalid_content_on_ok_response
              (Sample.browser (Some Sample.html_response))
              Sample.archive_key Sample.world0 Sample.html_response eq_refl)
    as [_ Hok].
  destruct (Hok eq_refl) as (_ & _ & Hhtml).
  exact (Hhtml "text/html; charset=utf-8" eq_refl eq_refl eq_refl).
Defined.

(** C7 as stated fails: a 404 that declares no content type fails with
    [http_error], not [invalid_content]. *)
Lemma C7_counterexample :
  ~ (forall r,
       fetch (Sample.browser (Some Sample.not_found))
             (fetch_count Sample.world0) Sample.archive_key = Some r ->
       (thrown_code (fst (fetchArchiveContent (Sample.browser (Some Sample.not_found))
                            Sample.archive_key Sample.world0)) =
          Some (CodeString "invalid_content")
        <-> match Fetch.get "content-type" (Fetch.headers r) with
            | Some ct => html_media_type ct = false
            | None => True
            end)).
Proof.
  intros H. specialize (H Sample.not_found eq_refl).
  destruct H as [_ H]. specialize (H I). vm_compute in H. discriminate.
Qed.

(** C8, as amended: a run of the fetcher either leaves the cache store
    as it was or writes one entry, under the exact request URL, whose
    value is the response built from the body text alone: status 200,
    empty status text, the single header the constructor gives a string
    body, and the text of the network response as body.  The headers
    and the status of the network response are not kept. *)
Theorem C8_cache_entry_holds_body_text (B : Browser) (url : string) (w : World) :
  cache (snd (fetchWithCache B url w)) = cache w \/
  exists r,
    fetch B (fetch_count w) url = Some r /\
    fst (fetchWithCache B url w) = Ok (Fetch.text r) /\
    cache (snd (fetchWithCache B url w)) =
      <[url := Fetch.mkResponse 200 EmptyString
                 [("content-type", "text/plain;charset=UTF-8")]
                 (Some (Fetch.text r))]> (cache w).
Proof.
  rewrite fetchWithCache_spec. cbn zeta.
  destruct (cache_rejects B (cache_ops w)); [left; reflexivity|].
  destruct (cache w !! url) as [c|]; [left; reflexivity|].
  rewrite fetchArchiveContent_spec. cbn zeta.
  rewrite fetch_count_with_event. cbn [is_fetch].
  destruct (fetch B (fetch_count w) url) as [r|]; [|left; reflexivity].
  destruct (Fetch.ok r); cbn [negb]; [|left; reflexivity].
  destruct (declares_html r); [|left; reflexivity].
  destruct (cache_rejects B _); [left; reflexivity|].
  right. exists r. repeat split.
Qed.

(** C8 as stated fails: the entry written for a 203 response with an
    etag header has status 200 and no etag. *)
Lemma C8_counterexample :
  ~ (forall r entry,
       fetch (Sample.browser (Some Sample.html_response))
             (fetch_count Sample.world0) Sample.archive_key = Some r ->
       cache (snd (fetchWithCache (Sample.browser (Some Sample.html_response))
                     Sample.archive_key Sample.world0)) !! Sample.archive_key
         = Some entry ->
       Fetch.body entry = Fetch.body r /\
       Fetch.headers entry = Fetch.headers r /\
       Fetch.status entry = Fetch.status r).
Proof.
  intros H.
  specialize (H Sample.html_response
                (Fetch.mkResponse 200 EmptyString
                   [("content-type", "text/plain;charset=UTF-8")]
                   (Some Sample.page_html)) eq_refl).
  assert (Hentry :
    cache (snd (fetchWithCache (Sample.browser (Some Sample.html_response))
                  Sample.archive_key Sample.world0)) !! Sample.archive_key
    = Some (Fetch.mkResponse 200 EmptyString
              [("content-type", "text/plain;charset=UTF-8")]
              (Some Sample.page_html))).
  { rewrite fetchWithCache_spec. cbn zeta.
    change (cache_rejects (Sample.browser (Some Sample.html_response))
              (cache_ops Sample.world0)) with (@None Rejection).
    replace (cache Sample.world0 !! Sample.archive_key)
      with (@None Fetch.Response) by (symmetry; apply lookup_empty).
    rewrite fetchArchiveContent_spec. cbn.
    apply lookup_insert_eq. }
  destruct (H Hentry) as (_ & _ & Hstatus). discriminate Hstatus.
Qed.

(** What two calls in a row do after a miss answered by a successful
    HTML response, the cache store accepting every operation. *)
Lemma fetchWithCache_twice (B : Browser) (url : string) (w : World)
    (r : Fetch.Response) :
  (forall n, cache_rejects B n = None) ->
  cache w !! url = None ->
  fetch B (fetch_count w) url = Some r ->
  Fetch.ok r = true ->
  declares_html r = true ->
  let first := fetchWithCache B url w in
  let second := fetchWithCache B url (snd first) in
  fst first = Ok (Fetch.text r) /\
  fst second = Ok (Fetch.utf8_decode (Fetch.text r)) /\
  trace (snd second) =
    trace w ++ [EvCacheMatch url; EvFetch url; EvCachePut url; EvCacheMatch url] /\
  fetch_count (snd second) = S (fetch_count w).
Proof.
  intros Hcache Hmiss Hnet Hok Hhtml first second.
  assert (Hfirst : first =
    (Ok (Fetch.text r),
     with_event
       (with_entry (with_event (with_event w (EvCacheMatch url)) (EvFetch url)) url
          (Fetch.mkResponse 200 EmptyString
             [("content-type", "text/plain;charset=UTF-8")]
             (Some (Fetch.text r))))
       (EvCachePut url))).
  { unfold first. rewrite fetchWithCache_spec. cbn zeta. rewrite Hcache, Hmiss.
    rewrite fetchArchiveContent_spec. cbn zeta.
    rewrite fetch_count_with_event. cbn [is_fetch].
    rewrite Hnet, Hok, Hhtml. cbn [negb]. cbv iota beta.
    rewrite Hcache. reflexivity. }
  assert (Hentry : cache (snd first) !! url =
    Some (Fetch.mkResponse 200 EmptyString
            [("content-type", "text/plain;charset=UTF-8")]
            (Some (Fetch.text r)))).
  { rewrite Hfirst. cbn. apply lookup_insert_eq. }
  assert (Hsecond : second =
    (Ok (Fetch.utf8_decode (Fetch.text r)),
     with_event (snd first) (EvCacheMatch url))).
  { unfold second. rewrite fetchWithCache_spec. cbn zeta. rewrite Hcache, Hentry.
    reflexivity. }
  split; [rewrite Hfirst; reflexivity|].
  split; [rewrite Hsecond; reflexivity|].
  split.
  - rewrite Hsecond, Hfirst. cbn. rewrite <- !app_assoc. reflexivity.
  - rewrite Hsecond, Hfirst. cbn [snd].
    rewrite !fetch_count_with_event. cbn [is_fetch].
    rewrite fetch_count_with_entry, !fetch_count_with_event. reflexivity.
Qed.

(** C4, at the failing input: for a page whose text, once decoded,
    still starts with a byte order mark, the first call returns that
    text and stores it, and the second call, which makes no network
    call, returns the stored body decoded once more: the text without
    its first character, not the text the first call returned. *)
Theorem C4_cached_text_differs (B : Browser) (url : string) (w : World)
    (r : Fetch.Response) (rest : string) :
  (forall n, cache_rejects B n = None) ->
  cache w !! url = None ->
  fetch B (fetch_count w) url = Some r ->
  Fetch.ok r = true ->
  declares_html r = true ->
  Fetch.text r = (Fetch.BOM ++ rest)%string ->
  let first := fetchWithCache B url w in
  let second := fetchWithCache B url (snd first) in
  fst first = Ok (Fetch.BOM ++ rest)%string /\
  fst second = Ok rest /\
  fst second <> fst first /\
  fetch_count (snd second) = S (fetch_count w).
Proof.
  intros Hcache Hmiss Hnet Hok Hhtml Htext first second.
  destruct (fetchWithCache_twice B url w r Hcache Hmiss Hnet Hok Hhtml)
    as (H1 & H2 & _ & H4).
  fold first in H1, H2, H4. fold second in H2, H4.
  rewrite Htext in H1, H2.
  change (Fetch.utf8_decode (Fetch.BOM ++ rest)) with rest in H2.
  split; [exact H1|]. split; [exact H2|]. split; [|exact H4].
  rewrite H1, H2. intros [= Heq].
  apply (f_equal String.length) in Heq.
  rewrite string_length_append in Heq. cbn in Heq. lia.
Qed.

(** ** The orchestrator *)
Section Orchestrator.

Context (B : Browser).

(** The renderer never throws; what it does, case by case. *)
Lemma renderContentSafely_spec (html : string) (w : World) :
  renderContentSafely B html w =
    (Ok tt,
     if Js.truthy html then
       match content w with
       | Some _ =>
           with_child w
             (RenderedContent
                (sanitize (Dom.set_children (parse_fragment B html)
                             (Dom.createElement 0 "div"))))
       | None => with_console w "Content container not found"
       end
     else with_console w "No content to render").
Proof.
  unfold renderContentSafely.
  destruct (Js.truthy html); cbn [negb]; [|reflexivity].
  unfold bind, getElementById_content.
  destruct (content w); reflexivity.
Qed.

(** The reporter on a code that has a message in [ERROR_MAP]. *)
Lemma displayError_spec (c : string) (url : option string) (w : World) (m : string) :
  or_default (ERROR_MAP_get c) "An unknown error occurred" = JString m ->
  displayError c url w =
    (Ok tt,
     let w1 := with_event w (EvReport c url) in
     match content w with
     | Some _ => with_child w1 (ErrorBlock "error" (error_markup c m url))
     | None => with_console w1 "Content container not found"
     end).
Proof.
  intros Hm. unfold displayError, bind, emit. rewrite Hm.
  unfold getElementById_content. cbn.
  destruct (content w); reflexivity.
Qed.

(** The reporter on a code that is a number: [escapeHTML] throws before
    anything is rendered or logged. *)
Lemma displayError_number (n : Z) (url : option string) (w : World) :
  displayError (CodeNumber n) url w =
    (Throw Fetch.TypeError, with_event w (EvReport (CodeNumber n) url)).
Proof. reflexivity. Qed.

Lemma renderContentSafely_content (html : string) (w : World) :
  content (snd (renderContentSafely B html w)) =
    if Js.truthy html then
      match content w with
      | Some l =>
          Some (l ++ [RenderedContent
                        (sanitize (Dom.set_children (parse_fragment B html)
                                     (Dom.createElement 0 "div")))])
      | None => None
      end
    else content w.
Proof.
  rewrite renderContentSafely_spec. cbn [snd].
  destruct (Js.truthy html); [|reflexivity].
  destruct (content w) eqn:E; cbn; rewrite E; reflexivity.
Qed.

Lemma displayError_content (c : string) (url : option string) (w : World) (m : string) :
  or_default (ERROR_MAP_get c) "An unknown error occurred" = JString m ->
  content (snd (displayError c url w)) =
    match content w with
    | Some l => Some (l ++ [ErrorBlock "error" (error_markup c m url)])
    | None => None
    end.
Proof.
  intros Hm. rewrite (displayError_spec c url w m Hm). cbn [snd].
  destruct (content w) eqn:E; cbn; rewrite E; reflexivity.
Qed.

(** Every call of the reporter is recorded, and none touches the cache
    store. *)
Lemma displayError_trace_cache (c : JsCode) (url : option string) (w : World) :
  trace (snd (displayError c url w)) = trace w ++ [EvReport c url] /\
  cache (snd (displayError c url w)) = cache w.
Proof.
  unfold displayError. run_steps. unfold emit, getElementById_content. cbn.
  destruct c as [c|n]; [|cbn; auto].
  destruct (or_default (ERROR_MAP_get c) "An unknown error occurred") as [m| |];
    cbn; auto.
  destruct (content w); cbn; auto.
Qed.

Lemma renderContentSafely_trace_cache (html : string) (w : World) :
  trace (snd (renderContentSafely B html w)) = trace w /\
  cache (snd (renderContentSafely B html w)) = cache w.
Proof.
  rewrite renderContentSafely_spec. cbn [snd].
  destruct (Js.truthy html); [destruct (content w)|]; auto.
Qed.

Lemma pipeline_codes_have_messages (c : string) :
  In c pipeline_codes ->
  exists m, or_default (ERROR_MAP_get c) "An unknown error occurred" = JString m.
Proof.
  unfold pipeline_codes. cbn [In].
  intros [<-|[<-|[<-|[<-|[<-|[]]]]]]; eexists; vm_compute; reflexivity.
Qed.

Lemma reported_code_rejection (rej : Rejection) :
  reported_code_ok (rejection_error rej).
Proof.
  destruct rej as [|name n]; [left; split; [reflexivity|]; exists "network_error";
                              split; [reflexivity|cbn; tauto]|].
  unfold reported_code_ok, carries_number, code_or. cbn.
  destruct (Z.eqb n 0); cbn.
  - left. split; [reflexivity|]. exists "network_error". split; [reflexivity|tauto].
  - right. split; [reflexivity|]. exists n. reflexivity.
Qed.

(** What the awaited stages do to the world: the content region is not
    touched, the reporter is not called, the network is called at most
    once, and a failure carries one of the pipeline's codes, none, or a
    number. *)
Lemma pipeline_shape (u : string) (w : World) :
  content (snd (pipeline B u w)) = content w /\
  (exists evs,
     trace (snd (pipeline B u w)) = trace w ++ evs /\
     List.filter is_report evs = [] /\
     length (List.filter is_fetch evs) <= 1) /\
  (forall e, fst (pipeline B u w) = Throw e -> reported_code_ok e).
Proof.
  assert (Hstr : forall c st msg, In c pipeline_codes -> Js.truthy c = true ->
            reported_code_ok (mkError (Some (CodeString c)) st msg)).
  { intros c st msg Hin Ht. left. split; [reflexivity|]. exists c.
    unfold code_or. cbn. rewrite Ht. auto. }
  assert (Hnone : forall st msg, reported_code_ok (mkError None st msg)).
  { intros st msg. left. split; [reflexivity|]. exists "network_error".
    split; [reflexivity|cbn; tauto]. }
  unfold pipeline, bind.
  destruct (validateUrl_cases B u w) as [(x & Hp & Hs & Hok) | (e & He & Hcode & Ht & Hc & _)].
  - rewrite Hok. rewrite fetchWithCache_spec. cbn zeta.
    set (k := buildArchiveUrl (href x)).
    destruct (cache_rejects B (cache_ops w)) as [rej|].
    { cbn. split; [reflexivity|]. split.
      - exists [EvCacheMatch k]. repeat split; cbn; lia.
      - intros e [= <-]. apply reported_code_rejection. }
    destruct (cache w !! k) as [c|].
    + cbn. split; [reflexivity|]. split; [|discriminate].
      exists [EvCacheMatch k]. repeat split; cbn; lia.
    + rewrite fetchArchiveContent_spec. cbn zeta.
      destruct (fetch B _ k) as [r|].
      * destruct (Fetch.ok r); cbn [negb].
        -- destruct (declares_html r); cbn iota beta.
           ++ destruct (cache_rejects B _) as [rej|]; cbn.
              ** split; [reflexivity|]. split.
                 --- exists [EvCacheMatch k; EvFetch k; EvCachePut k].
                     rewrite <- !app_assoc. repeat split; cbn; lia.
                 --- intros e [= <-]. apply reported_code_rejection.
              ** split; [reflexivity|]. split; [|discriminate].
                 exists [EvCacheMatch k; EvFetch k; EvCachePut k].
                 rewrite <- !app_assoc. repeat split; cbn; lia.
           ++ cbn. split; [reflexivity|]. split.
              ** exists [EvCacheMatch k; EvFetch k].
                 rewrite <- !app_assoc. repeat split; cbn; lia.
              ** intros e [= <-]. apply Hstr; [cbn; tauto | reflexivity].
        -- cbn. split; [reflexivity|]. split.
           ++ exists [EvCacheMatch k; EvFetch k].
              rewrite <- !app_assoc. repeat split; cbn; lia.
           ++ intros e [= <-]. apply Hstr; [cbn; tauto | reflexivity].
      * cbn. split; [reflexivity|]. split.
        -- exists [EvCacheMatch k; EvFetch k].
           rewrite <- !app_assoc. repeat split; cbn; lia.
        -- intros e [= <-]. apply Hnone.
  - destruct (validateUrl B u w) as [[v|e0] w0]; cbn in *; [discriminate|].
    injection He as ->.
    split; [exact Hc|]. split.
    + exists []. rewrite app_nil_r. repeat split; auto.
    + intros e' [= <-]. destruct e as [ce st msg]. cbn in Hcode.
      destruct Hcode as [-> | ->]; apply Hstr; cbn; tauto.
Qed.

(** The orchestrator on a present, non-empty parameter: the awaited
    stages, then the renderer on success or the reporter on failure. *)
Lemma initializeApp_spec (u : string) (w : World) :
  Js.truthy u = true ->
  initializeApp B (Some u) w =
    match pipeline B u w with
    | (Ok html, w1) => (Ok tt, snd (renderContentSafely B html w1))
    | (Throw e, w1) =>
        displayError (code_or (code e) "network_error") (Some u) w1
    end.
Proof.
  intros Hu. unfold initializeApp, pipeline. run_steps.
  rewrite Hu.
  destruct (validateUrl B u w) as [[v|e] w0]; [|reflexivity].
  destruct (fetchWithCache B (buildArchiveUrl v) w0) as [[c|e] w1]; reflexivity.
Qed.

Lemma initializeApp_missing (userUrl : option string) (w : World) :
  Js.truthy_opt userUrl = false ->
  initializeApp B userUrl w = displayError "missing_url" None w.
Proof.
  unfold initializeApp. destruct userUrl as [u|]; cbn; [|reflexivity].
  intros ->. reflexivity.
Qed.

End Orchestrator.

(** C2, as amended: a page load appends at most one child to the content
    region, never a rendered fragment and an error block together.  With
    the region present: a missing or empty parameter appends one error
    block; a failing stage whose failure carries a string code or no
    code appends one error block; a fetched body that is not empty
    appends the sanitized container; a fetched empty body appends
    nothing.  With the region absent nothing is rendered.  What is
    rendered for a failure whose code is a number is not part of the
    statement, beyond its being at most one child. *)
Theorem C2_at_most_one_child (B : Browser) (userUrl : option string) (w : World) :
  let w' := snd (initializeApp B userUrl w) in
  (content w = None -> content w' = None) /\
  (forall l, content w = Some l ->
     (exists added, content w' = Some (l ++ added) /\ length added <= 1) /\
     (Js.truthy_opt userUrl = false ->
        content w' =
          Some (l ++ [ErrorBlock "error"
                        (error_markup "missing_url"
                           "Please provide a URL parameter in the query string"
                           None)])) /\
     (forall u e w1,
        userUrl = Some u -> Js.truthy u = true ->
        pipeline B u w = (Throw e, w1) ->
        carries_number e = false ->
        exists c m,
          code_or (code e) "network_error" = CodeString c /\
          content w' =
            Some (l ++ [ErrorBlock "error" (error_markup c m (Some u))])) /\
     (forall u html w1,
        userUrl = Some u -> Js.truthy u = true ->
        pipeline B u w = (Ok html, w1) ->
        content w' =
          if Js.truthy html
          then Some (l ++ [RenderedContent
                             (sanitize (Dom.set_children (parse_fragment B html)
                                          (Dom.createElement 0 "div")))])
          else Some l)).
Proof.
  cbn zeta.
  assert (Hgen : forall o,
            content w = o ->
            match o with
            | None => content (snd (initializeApp B userUrl w)) = None
            | Some l => exists added,
                content (snd (initializeApp B userUrl w)) = Some (l ++ added) /\
                length added <= 1
            end).
  { intros o Ho.
    destruct (Js.truthy_opt userUrl) eqn:Ht.
    - destruct userUrl as [u|]; [|discriminate]. cbn in Ht.
      rewrite (initializeApp_spec B u w Ht).
      destruct (pipeline_shape B u w) as (Hc & _ & Hcodes).
      destruct (pipeline B u w) as [[html|e] w1]; cbn [fst snd] in *.
      + rewrite renderContentSafely_content, Hc, Ho.
        destruct o as [l|]; [|destruct (Js.truthy html); reflexivity].
        destruct (Js.truthy html).
        * eexists. split; [reflexivity|]. cbn. lia.
        * exists []. rewrite app_nil_r. split; [reflexivity|]. cbn. lia.
      + destruct (Hcodes e eq_refl) as [(_ & c & -> & Hin) | (_ & n & ->)].
        * destruct (pipeline_codes_have_messages c Hin) as [m Hm].
          rewrite (displayError_content c (Some u) w1 m Hm), Hc, Ho.
          destruct o as [l|]; [|reflexivity].
          eexists. split; [reflexivity|]. cbn. lia.
        * rewrite displayError_number. cbn [snd].
          change (content (with_event w1 (EvReport (CodeNumber n) (Some u))))
            with (content w1).
          rewrite Hc, Ho. destruct o as [l|]; [|reflexivity].
          exists []. rewrite app_nil_r. split; [reflexivity|]. cbn. lia.
    - rewrite (initializeApp_missing B userUrl w Ht).
      rewrite (displayError_content "missing_url" None w
                 "Please provide a URL parameter in the query string" eq_refl), Ho.
      destruct o as [l|]; [|reflexivity].
      eexists. split; [reflexivity|]. cbn. lia. }
  split; [intros Hnone; exact (Hgen None Hnone)|].
  intros l Hl. split; [exact (Hgen (Some l) Hl)|]. split; [|split].
  - intros Ht. rewrite (initializeApp_missing B userUrl w Ht).
    rewrite (displayError_content "missing_url" None w
               "Please provide a URL parameter in the query string" eq_refl), Hl.
    reflexivity.
  - intros u e w1 -> Ht Hp Hnum.
    rewrite (initializeApp_spec B u w Ht).
    destruct (pipeline_shape B u w) as (Hc & _ & Hcodes).
    rewrite Hp in *. cbn [fst snd] in *.
    destruct (Hcodes e eq_refl) as [(_ & c & Hcode & Hin) | (Hn & _)];
      [|congruence].
    destruct (pipeline_codes_have_messages c Hin) as [m Hm].
    exists c, m. split; [exact Hcode|].
    rewrite Hcode, (displayError_content c (Some u) w1 m Hm), Hc, Hl. reflexivity.
  - intros u html w1 -> Ht Hp.
    rewrite (initializeApp_spec B u w Ht).
    destruct (pipeline_shape B u w) as (Hc & _ & _).
    rewrite Hp in *. cbn [fst snd] in *.
    rewrite renderContentSafely_content, Hc, Hl. reflexivity.
Qed.

Lemma C2_at_most_one_child_witness :
  content (snd (initializeApp (Sample.browser (Some Sample.empty_response))
                  (Some Sample.page) Sample.world0)) = Some [].
Proof.
  destruct (C2_at_most_one_child (Sample.browser (Some Sample.empty_response))
              (Some Sample.page) Sample.world0) as [_ H].
  destruct (H [] eq_refl) as (_ & _ & _ & Hok).
  exact (Hok Sample.page EmptyString
           (snd (pipeline (Sample.browser (Some Sample.empty_response))
                   Sample.page Sample.world0))
           eq_refl eq_refl eq_refl).
Defined.

(** C2 as stated fails: when the archive answers 200 text/html with an
    empty body, the page load appends neither a rendered fragment nor an
    error block. *)
Lemma C2_counterexample :
  ~ (exists c,
       appended Sample.world0
         (snd (initializeApp (Sample.browser (Some Sample.empty_response))
                 (Some Sample.page) Sample.world0))
         [c]).
Proof.
  intros (c & l & Hl & Hc).
  injection Hl as <-. vm_compute in Hc. discriminate.
Qed.

(** C3: the renderer never throws, and every failure of the awaited
    stages (validator, request builder, fetcher, the cache operations of
    the fetcher included) is handed to the error reporter exactly once,
    with its code, or [network_error] when it has none, and with the
    user's URL; nothing is retried: the whole run makes at most one
    network call. *)
Theorem C3_failure_reaches_reporter (B : Browser) :
  (forall html w, fst (renderContentSafely B html w) = Ok tt) /\
  (forall u w e w1,
     Js.truthy u = true ->
     pipeline B u w = (Throw e, w1) ->
     let run := initializeApp B (Some u) w in
     trace (snd run) =
       trace w1 ++ [EvReport (code_or (code e) "network_error") (Some u)] /\
     List.filter is_report (trace w1) = List.filter is_report (trace w) /\
     fetch_count (snd run) <= S (fetch_count w)).
Proof.
  split.
  - intros html w. rewrite renderContentSafely_spec. reflexivity.
  - intros u w e w1 Ht Hp. cbn zeta.
    rewrite (initializeApp_spec B u w Ht).
    destruct (pipeline_shape B u w) as (Hc & (evs & Hevs & Hrep & Hfetch) & _).
    rewrite Hp in *. cbn [fst snd] in *.
    destruct (displayError_trace_cache (code_or (code e) "network_error")
                (Some u) w1) as [Htr _].
    split; [exact Htr|]. split.
    + rewrite Hevs, List.filter_app, Hrep, app_nil_r. reflexivity.
    + unfold fetch_count. rewrite Htr, Hevs, !List.filter_app, !List.length_app.
      cbn. lia.
Qed.

Lemma C3_failure_reaches_reporter_witness :
  trace (snd (initializeApp Sample.storage_denied (Some Sample.page)
                Sample.world0)) =
    [EvCacheMatch Sample.archive_key;
     EvReport (CodeNumber 18) (Some Sample.page)].
Proof.
  destruct (C3_failure_reaches_reporter Sample.storage_denied) as [_ H].
  destruct (H Sample.page Sample.world0
              (rejection_error (RejectDOMException "SecurityError" 18))
              (snd (pipeline Sample.storage_denied Sample.page Sample.world0))
              eq_refl eq_refl) as (Htrace & _).
  exact Htrace.
Defined.

Lemma C4_cached_text_differs_witness :
  fst (fetchWithCache (Sample.browser (Some Sample.bom_response)) Sample.archive_key
         Sample.world0) = Ok (Fetch.BOM ++ "<p>x</p>")%string /\
  fst (fetchWithCache (Sample.browser (Some Sample.bom_response)) Sample.archive_key
         (snd (fetchWithCache (Sample.browser (Some Sample.bom_response))
                 Sample.archive_key Sample.world0))) = Ok "<p>x</p>".
Proof.
  destruct (C4_cached_text_differs (Sample.browser (Some Sample.bom_response))
              Sample.archive_key Sample.world0 Sample.bom_response "<p>x</p>"
              (fun _ => eq_refl) eq_refl eq_refl eq_refl eq_refl eq_refl)
    as (H1 & H2 & _).
  split; [exact H1 | exact H2].
Defined.

(** ** The error reporter *)
Section Escaping.

(** What [escapeHTML] does with the first character. *)
Lemma escapeHTML_cons (c : ascii) (r : string) :
  (c = "&"%char /\ escapeHTML (String c r) = ("&amp;" ++ escapeHTML r)%string) \/
  (c = "<"%char /\ escapeHTML (String c r) = ("&lt;" ++ escapeHTML r)%string) \/
  (c = ">"%char /\ escapeHTML (String c r) = ("&gt;" ++ escapeHTML r)%string) \/
  (c = "'"%char /\ escapeHTML (String c r) = ("&#39;" ++ escapeHTML r)%string) \/
  (c = ascii_of_nat 34 /\ escapeHTML (String c r) = ("&quot;" ++ escapeHTML r)%string) \/
  (c <> "&"%char /\ c <> "<"%char /\ escapeHTML (String c r) = String c (escapeHTML r)).
Proof.
  cbn [escapeHTML]. unfold charsToReplace.
  destruct (Ascii.eqb c "&") eqn:E1; [apply Ascii.eqb_eq in E1; auto|].
  destruct (Ascii.eqb c "<") eqn:E2; [apply Ascii.eqb_eq in E2; auto|].
  destruct (Ascii.eqb c ">") eqn:E3; [apply Ascii.eqb_eq in E3; auto 6|].
  destruct (Ascii.eqb c "'") eqn:E4; [apply Ascii.eqb_eq in E4; auto 7|].
  destruct (Ascii.eqb c (ascii_of_nat 34)) eqn:E5; [apply Ascii.eqb_eq in E5; auto 8|].
  apply Ascii.eqb_neq in E1, E2. auto 10.
Qed.

Lemma includes_one_cons (a c : ascii) (r : string) :
  Js.includes (String a EmptyString) (String c r) =
    (if ascii_dec a c then true else false) || Js.includes (String a EmptyString) r.
Proof.
  cbn [Js.includes String.prefix].
  destruct (ascii_dec a c); destruct r; reflexivity.
Qed.

(** No [<] is left in an escaped text. *)
Lemma escapeHTML_no_lt (s : string) :
  Js.includes "<" (escapeHTML s) = false.
Proof.
  induction s as [|c r IH]; [reflexivity|].
  destruct (escapeHTML_cons c r)
    as [[_ ->]|[[_ ->]|[[_ ->]|[[_ ->]|[[_ ->]|(_ & Hlt & ->)]]]]];
    rewrite ?append_cons, ?append_nil_l, !includes_one_cons, IH;
    repeat match goal with
           | |- context [ascii_dec ?a ?b] =>
               destruct (ascii_dec a b); [congruence|]
           end; reflexivity.
Qed.

(** Every [&] of an escaped text opens an entity. *)
Lemma escapeHTML_amp_opens_entity (s : string) :
  amp_opens_entity (escapeHTML s) = true.
Proof.
  induction s as [|c r IH]; [reflexivity|].
  destruct (escapeHTML_cons c r)
    as [[_ ->]|[[_ ->]|[[_ ->]|[[_ ->]|[[_ ->]|(Hamp & _ & ->)]]]]].
  1-5: rewrite !append_cons, append_nil_l; cbn; destruct (escapeHTML r); exact IH.
  cbn [amp_opens_entity]. apply Ascii.eqb_neq in Hamp. rewrite Hamp. exact IH.
Qed.

Lemma escapeHTML_keeps_lt (s : string) :
  Js.includes "<" s = true -> Js.includes "&lt;" (escapeHTML s) = true.
Proof.
  induction s as [|c r IH]; [discriminate|].
  rewrite includes_one_cons. intros H.
  destruct (ascii_dec "<" c) as [<-|Hne].
  - change (escapeHTML (String "<" r)) with ("&lt;" ++ escapeHTML r)%string.
    apply includes_app_l. reflexivity.
  - cbn [orb] in H. specialize (IH H).
    destruct (escapeHTML_cons c r)
      as [[_ ->]|[[_ ->]|[[_ ->]|[[_ ->]|[[_ ->]|(_ & _ & ->)]]]]];
      first [ apply includes_app_r; exact IH
            | apply (includes_app_r _ (String c EmptyString)); exact IH ].
Qed.

Lemma escapeHTML_keeps_amp (s : string) :
  Js.includes "&" s = true -> Js.includes "&amp;" (escapeHTML s) = true.
Proof.
  induction s as [|c r IH]; [discriminate|].
  rewrite includes_one_cons. intros H.
  destruct (ascii_dec "&" c) as [<-|Hne].
  - change (escapeHTML (String "&" r)) with ("&amp;" ++ escapeHTML r)%string.
    apply includes_app_l. reflexivity.
  - cbn [orb] in H. specialize (IH H).
    destruct (escapeHTML_cons c r)
      as [[_ ->]|[[_ ->]|[[_ ->]|[[_ ->]|[[_ ->]|(_ & _ & ->)]]]]];
      first [ apply includes_app_r; exact IH
            | apply (includes_app_r _ (String c EmptyString)); exact IH ].
Qed.

End Escaping.

(** C9: for an error context URL that contains [<] and [&], the error
    block appended to the content region is the template with the
    escaped code, the escaped message and the escaped URL in its three
    places; the escaped URL contains [&lt;] and [&amp;]; and an escaped
    text, whichever it is, has no [<] left and no [&] other than the one
    that opens an entity. *)
Theorem C9_error_block_is_escaped (c url message : string) (w : World)
    (l : list Child) :
  Js.includes "<" url = true ->
  Js.includes "&" url = true ->
  or_default (ERROR_MAP_get c) "An unknown error occurred" = JString message ->
  content w = Some l ->
  let before :=
    (nl ++ "        <strong>Error:</strong> " ++ escapeHTML c ++ "<br>" ++
     nl ++ "        <span>" ++ escapeHTML message ++ "</span>" ++
     nl ++ "        " ++ "<br><strong>URL:</strong> ")%string in
  let after := (nl ++ "    ")%string in
  content (snd (displayError c (Some url) w)) =
    Some (l ++ [ErrorBlock "error" (before ++ escapeHTML url ++ after)%string]) /\
  Js.includes "&lt;" (escapeHTML url) = true /\
  Js.includes "&amp;" (escapeHTML url) = true /\
  (forall s, Js.includes "<" (escapeHTML s) = false /\
             amp_opens_entity (escapeHTML s) = true).
Proof.
  intros Hlt Hamp Hm Hl before after.
  split; [|split; [|split]].
  - rewrite (displayError_content c (Some url) w message Hm), Hl.
    do 3 f_equal. unfold error_markup, before, after.
    rewrite (includes_nonempty "<" url eq_refl Hlt).
    rewrite !append_assoc. reflexivity.
  - apply escapeHTML_keeps_lt, Hlt.
  - apply escapeHTML_keeps_amp, Hamp.
  - intros s. split; [apply escapeHTML_no_lt | apply escapeHTML_amp_opens_entity].
Qed.

Lemma C9_error_block_is_escaped_witness :
  content (snd (displayError "invalid_url" (Some "<b>&x") Sample.world0)) =
    Some [ErrorBlock "error"
            (nl ++ "        <strong>Error:</strong> invalid_url<br>" ++
             nl ++ "        <span>The provided URL is invalid</span>" ++
             nl ++ "        <br><strong>URL:</strong> &lt;b&gt;&amp;x" ++
             nl ++ "    ")%string].
Proof.
  destruct (C9_error_block_is_escaped "invalid_url" "<b>&x"
              "The provided URL is invalid" Sample.world0 []
              eq_refl eq_refl eq_refl eq_refl) as [H _].
  exact H.
Defined.

(** ** The CORS worker *)
Section Worker.

Lemma name_eq_true (a b : string) :
  Fetch.name_eq a b = true <-> Js.lower a = Js.lower b.
Proof. unfold Fetch.name_eq. apply String.eqb_eq. Qed.

Lemma name_eq_false (a b : string) :
  Fetch.name_eq a b = false <-> Js.lower a <> Js.lower b.
Proof. unfold Fetch.name_eq. apply String.eqb_neq. Qed.

Lemma values_of_without (n name : string) (h : Fetch.Headers) :
  Fetch.name_eq n name = true ->
  Fetch.values_of n
    (List.filter (fun kv => negb (Fetch.name_eq (fst kv) name)) h) = [].
Proof.
  intros Hn. apply name_eq_true in Hn. unfold Fetch.values_of.
  induction h as [|[k x] r IH]; [reflexivity|]. cbn [List.filter fst].
  destruct (Fetch.name_eq k name) eqn:Hk; cbn [negb]; [exact IH|].
  cbn [List.filter fst].
  destruct (Fetch.name_eq k n) eqn:Hkn; [|exact IH].
  apply name_eq_true in Hkn. apply name_eq_false in Hk. congruence.
Qed.

Lemma values_of_filter_other (n name : string) (h : Fetch.Headers) :
  Fetch.name_eq n name = false ->
  Fetch.values_of n
    (List.filter (fun kv => negb (Fetch.name_eq (fst kv) name)) h) =
  Fetch.values_of n h.
Proof.
  intros Hn. apply name_eq_false in Hn. unfold Fetch.values_of.
  induction h as [|[k x] r IH]; [reflexivity|]. cbn [List.filter fst].
  destruct (Fetch.name_eq k name) eqn:Hk; cbn [negb].
  - destruct (Fetch.name_eq k n) eqn:Hkn; [|exact IH].
    apply name_eq_true in Hkn, Hk. congruence.
  - cbn [List.filter fst].
    destruct (Fetch.name_eq k n); cbn [map]; rewrite IH; reflexivity.
Qed.

(** After [set], the name has exactly the value set. *)
Lemma values_of_set_same (n name value : string) (h : Fetch.Headers) :
  Fetch.name_eq n name = true ->
  Fetch.values_of n (Fetch.set name value h) = [value].
Proof.
  intros Hn. pose proof Hn as Hn'. apply name_eq_true in Hn'.
  induction h as [|[k x] r IH]; cbn [Fetch.set].
  - unfold Fetch.values_of. cbn [List.filter fst].
    replace (Fetch.name_eq name n) with true; [reflexivity|].
    symmetry. apply name_eq_true. congruence.
  - destruct (Fetch.name_eq k name) eqn:Hk.
    + unfold Fetch.values_of. cbn [List.filter fst].
      replace (Fetch.name_eq k n) with true.
      * cbn [map snd]. f_equal. apply (values_of_without n name r Hn).
      * symmetry. apply name_eq_true. apply name_eq_true in Hk. congruence.
    + unfold Fetch.values_of. cbn [List.filter fst].
      replace (Fetch.name_eq k n) with false; [exact IH|].
      symmetry. apply name_eq_false. apply name_eq_false in Hk. congruence.
Qed.

(** After [set], every other name has the values it had. *)
Lemma values_of_set_other (n name value : string) (h : Fetch.Headers) :
  Fetch.name_eq n name = false ->
  Fetch.values_of n (Fetch.set name value h) = Fetch.values_of n h.
Proof.
  intros Hn. pose proof Hn as Hn'. apply name_eq_false in Hn'.
  induction h as [|[k x] r IH]; cbn [Fetch.set].
  - unfold Fetch.values_of. cbn [List.filter fst].
    replace (Fetch.name_eq name n) with false; [reflexivity|].
    symmetry. apply name_eq_false. congruence.
  - destruct (Fetch.name_eq k name) eqn:Hk.
    + unfold Fetch.values_of. cbn [List.filter fst].
      replace (Fetch.name_eq k n) with false.
      * apply (values_of_filter_other n name r Hn).
      * symmetry. apply name_eq_false. apply name_eq_true in Hk. congruence.
    + unfold Fetch.values_of. cbn [List.filter fst].
      destruct (Fetch.name_eq k n); cbn [map]; [f_equal|]; exact IH.
Qed.

Lemma get_set_same (n name value : string) (h : Fetch.Headers) :
  Fetch.name_eq n name = true ->
  Fetch.get n (Fetch.set name value h) = Some value.
Proof.
  intros Hn. unfold Fetch.get. rewrite (values_of_set_same n name value h Hn).
  reflexivity.
Qed.

Lemma get_set_other (n name value : string) (h : Fetch.Headers) :
  Fetch.name_eq n name = false ->
  Fetch.get n (Fetch.set name value h) = Fetch.get n h.
Proof.
  intros Hn. unfold Fetch.get. rewrite (values_of_set_other n name value h Hn).
  reflexivity.
Qed.

Context (network : ServiceWorker.Request -> option Fetch.Response).

(** A request outside the archive prefix is left to the browser. *)
Lemma on_fetch_passes_through (request : ServiceWorker.Request) :
  Js.startsWith "https://archive.today/" (ServiceWorker.url request) = false ->
  ServiceWorker.on_fetch network request = ServiceWorker.PassThrough.
Proof. unfold ServiceWorker.on_fetch. intros ->. reflexivity. Qed.

(** On a response the [Response] constructor accepts, the worker answers
    with the same body, status and status text, the header
    Access-Control-Allow-Origin set to [*] and every other header as it
    was. *)
Lemma on_fetch_sets_cors_header (request : ServiceWorker.Request)
    (r : Fetch.Response) :
  Js.startsWith "https://archive.today/" (ServiceWorker.url request) = true ->
  network request = Some r ->
  (200 <= Fetch.status r <= 599)%Z ->
  Fetch.reason_phrase (Fetch.statusText r) = true ->
  (Fetch.body r <> None -> Fetch.null_body_status (Fetch.status r) = false) ->
  exists r',
    ServiceWorker.on_fetch network request = ServiceWorker.RespondWith (Ok r') /\
    Fetch.body r' = Fetch.body r /\
    Fetch.status r' = Fetch.status r /\
    Fetch.statusText r' = Fetch.statusText r /\
    Fetch.get "Access-Control-Allow-Origin" (Fetch.headers r') = Some "*" /\
    (forall n, Fetch.name_eq n "Access-Control-Allow-Origin" = false ->
       Fetch.get n (Fetch.headers r') = Fetch.get n (Fetch.headers r)).
Proof.
  intros Hpre Hnet Hrange Hphrase Hnull.
  unfold ServiceWorker.on_fetch, ServiceWorker.handleRequest.
  rewrite Hpre, Hnet. unfold Fetch.new_Response.
  cbn [Fetch.init_status Fetch.init_statusText Fetch.init_headers].
  replace ((200 <=? Fetch.status r)%Z && (Fetch.status r <=? 599)%Z) with true
    by (symmetry; apply andb_true_iff; split; apply Z.leb_le; lia).
  rewrite Hphrase. cbn [negb].
  destruct (Fetch.body r) as [b|] eqn:Hb.
  - rewrite Hnull by discriminate.
    eexists. split; [reflexivity|]. cbn. repeat split; auto.
    + apply get_set_same. reflexivity.
    + intros n Hn. apply get_set_other. exact Hn.
  - eexists. split; [reflexivity|]. cbn. repeat split; auto.
    + apply get_set_same. reflexivity.
    + intros n Hn. apply get_set_other. exact Hn.
Qed.

End Worker.

(** C5, at the failing input: for a request under the archive prefix
    whose network response has a status outside 200..599, as the opaque
    response of a no-cors request has (status 0), the worker intercepts
    the event and the promise it answers with is rejected with the
    RangeError of the [Response] constructor; no response is returned. *)
Theorem C5_worker_rejects_on_opaque_response
    (network : ServiceWorker.Request -> option Fetch.Response)
    (request : ServiceWorker.Request) (r : Fetch.Response) :
  Js.startsWith "https://archive.today/" (ServiceWorker.url request) = true ->
  network request = Some r ->
  (Fetch.status r < 200 \/ 599 < Fetch.status r)%Z ->
  ServiceWorker.on_fetch network request =
    ServiceWorker.RespondWith (Throw Fetch.RangeError).
Proof.
  intros Hpre Hnet Hrange.
  unfold ServiceWorker.on_fetch, ServiceWorker.handleRequest.
  rewrite Hpre, Hnet. unfold Fetch.new_Response.
  cbn [Fetch.init_status].
  replace ((200 <=? Fetch.status r)%Z && (Fetch.status r <=? 599)%Z) with false;
    [reflexivity|].
  symmetry. apply andb_false_iff.
  destruct Hrange; [left; apply Z.leb_gt | right; apply Z.leb_gt]; lia.
Qed.

Lemma C5_worker_rejects_on_opaque_response_witness :
  ServiceWorker.on_fetch (fun _ => Some Sample.opaque) Sample.archive_image =
    ServiceWorker.RespondWith (Throw Fetch.RangeError).
Proof.
  apply (C5_worker_rejects_on_opaque_response
           (fun _ => Some Sample.opaque) Sample.archive_image Sample.opaque
           eq_refl eq_refl).
  left. reflexivity.
Defined.

(** ** The sanitizer *)
Section Sanitizer.

Import Dom.

(** Induction on nodes, with the hypothesis on every child. *)
Lemma Node_ind_children (P : Node -> Prop) :
  (forall s, P (Text s)) ->
  (forall u ns ln attrs ch, Forall P ch -> P (Element u ns ln attrs ch)) ->
  forall n, P n.
Proof.
  intros HT HE. fix IH 1. intros [s|u ns ln attrs ch]; [apply HT|].
  apply HE. induction ch as [|c r IHr]; constructor; [apply IH | exact IHr].
Qed.

Lemma prune_element (p : Node -> bool) u ns ln attrs ch :
  prune p (Element u ns ln attrs ch) = Element u ns ln attrs (prune_list p ch).
Proof.
  cbn [prune]. f_equal.
  induction ch as [|c r IH]; [reflexivity|].
  cbn [prune_list]. rewrite IH. reflexivity.
Qed.

Lemma label_prune (p : Node -> bool) (n : Node) : label (prune p n) = label n.
Proof. destruct n; reflexivity. Qed.

Lemma by_label_prune (p q : Node -> bool) (n : Node) :
  by_label q -> q (prune p n) = q n.
Proof. intros Hq. apply Hq, label_prune. Qed.

Lemma matches_by_label (sel : Selector) : by_label (matches sel).
Proof.
  intros n m H. unfold matches. f_equal.
  destruct n, m; cbn in H; try discriminate; [reflexivity|].
  injection H as -> -> -> ->. reflexivity.
Qed.

Lemma has_uid_by_label (i : nat) : by_label (has_uid i).
Proof.
  intros n m H. destruct n, m; cbn in H; try discriminate; [reflexivity|].
  injection H as -> -> -> ->. reflexivity.
Qed.

Lemma detach_prune (i : nat) (n : Node) : detach i n = prune (has_uid i) n.
Proof.
  induction n as [s|u ns ln attrs ch IH] using Node_ind_children; [reflexivity|].
  cbn [detach prune]. f_equal.
  induction IH as [|c r Hc _ IHr]; [reflexivity|].
  destruct (has_uid i c); [exact IHr|]. rewrite Hc, IHr. reflexivity.
Qed.

Lemma matches_on_elements (sel : Selector) : on_elements (matches sel).
Proof.
  intros s. unfold matches. induction sel as [|c r IH]; [reflexivity|].
  cbn. exact IH.
Qed.

Lemma has_uid_on_elements (i : nat) : on_elements (has_uid i).
Proof. intros s. reflexivity. Qed.

Lemma elements_of_cons (c : Node) (r : list Node) :
  elements_of (c :: r) = elements c ++ elements_of r.
Proof. reflexivity. Qed.

Lemma elements_element u ns ln attrs ch :
  elements (Element u ns ln attrs ch) =
    Element u ns ln attrs ch :: elements_of ch.
Proof. reflexivity. Qed.

(** Pruning by two predicates that agree on the elements of the list
    gives the same list. *)
Lemma prune_list_ext (p q : Node -> bool) (l : list Node) :
  on_elements p -> on_elements q ->
  (forall x, In x (elements_of l) -> p x = q x) ->
  prune_list p l = prune_list q l.
Proof.
  intros Hp Hq.
  enough (Hn : forall n, (forall x, In x (elements n) -> p x = q x) ->
                         prune p n = prune q n).
  { induction l as [|c r IH]; [reflexivity|]. intros H.
    rewrite elements_of_cons in H. cbn [prune_list].
    assert (Hc : p c = q c).
    { destruct c as [s|u ns ln attrs ch]; [rewrite Hp, Hq; reflexivity|].
      apply H. apply in_or_app. left. rewrite elements_element. left. reflexivity. }
    rewrite Hc, IH, Hn; [reflexivity| |].
    - intros x Hx. apply H, in_or_app. left. exact Hx.
    - intros x Hx. apply H, in_or_app. right. exact Hx. }
  intros n.
  induction n as [s|u ns ln attrs ch IH] using Node_ind_children; [reflexivity|].
  intros H. rewrite !prune_element. f_equal.
  rewrite elements_element in H.
  assert (H' : forall x, In x (elements_of ch) -> p x = q x).
  { intros x Hx. apply H. right. exact Hx. }
  clear H. induction IH as [|c r Hc _ IHr]; [reflexivity|].
  rewrite elements_of_cons in H'. cbn [prune_list].
  assert (Hpc : p c = q c).
  { destruct c as [s|cu cns cln cattrs cch]; [rewrite Hp, Hq; reflexivity|].
    apply H'. apply in_or_app. left. rewrite elements_element. left. reflexivity. }
  rewrite Hpc, IHr, Hc; [reflexivity| |].
  - intros x Hx. apply H', in_or_app. left. exact Hx.
  - intros x Hx. apply H', in_or_app. right. exact Hx.
Qed.

(** Pruning twice is pruning by the disjunction. *)
Lemma prune_list_twice (p q : Node -> bool) (l : list Node) :
  by_label q ->
  prune_list q (prune_list p l) = prune_list (fun x => p x || q x) l.
Proof.
  intros Hq.
  enough (Hn : forall n, prune q (prune p n) = prune (fun x => p x || q x) n).
  { induction l as [|c r IH]; [reflexivity|]. cbn [prune_list].
    destruct (p c); cbn [orb]; [exact IH|].
    cbn [prune_list]. rewrite (by_label_prune p q c Hq).
    destruct (q c); [exact IH|]. rewrite Hn, IH. reflexivity. }
  intros n.
  induction n as [s|u ns ln attrs ch IH] using Node_ind_children; [reflexivity|].
  rewrite !prune_element. f_equal.
  induction IH as [|c r Hc _ IHr]; [reflexivity|]. cbn [prune_list].
  destruct (p c); cbn [orb]; [exact IHr|].
  cbn [prune_list]. rewrite (by_label_prune p q c Hq).
  destruct (q c); [exact IHr|]. rewrite Hc, IHr. reflexivity.
Qed.

Lemma prune_list_none (l : list Node) :
  prune_list (fun _ => false) l = l.
Proof.
  enough (Hn : forall n, prune (fun _ => false) n = n).
  { induction l as [|c r IH]; [reflexivity|]. cbn [prune_list].
    rewrite Hn, IH. reflexivity. }
  intros n.
  induction n as [s|u ns ln attrs ch IH] using Node_ind_children; [reflexivity|].
  rewrite prune_element. f_equal.
  induction IH as [|c r Hc _ IHr]; [reflexivity|]. cbn [prune_list].
  rewrite Hc, IHr. reflexivity.
Qed.

Lemma targeted_on_elements (targets : list Node) : on_elements (targeted targets).
Proof.
  intros s. unfold targeted. induction targets as [|t ts IH]; [reflexivity|].
  cbn [existsb]. rewrite IH. destruct (uid_of t); reflexivity.
Qed.

Lemma targeted_by_label (targets : list Node) : by_label (targeted targets).
Proof.
  intros n m H. unfold targeted. induction targets as [|t ts IH]; [reflexivity|].
  cbn [existsb]. rewrite IH. f_equal.
  destruct (uid_of t) as [i|]; [apply has_uid_by_label, H | reflexivity].
Qed.

(** Facts about the predicates the sanitizer prunes by. *)
Create HintDb dom.
#[local] Hint Resolve matches_by_label has_uid_by_label targeted_by_label
  matches_on_elements has_uid_on_elements targeted_on_elements : dom.

Lemma prune_of_list (p q : Node -> bool) (n : Node) :
  (forall l, prune_list p l = prune_list q l) -> prune p n = prune q n.
Proof.
  intros H. destruct n as [s|u ns ln attrs ch]; [reflexivity|].
  rewrite !prune_element, H. reflexivity.
Qed.

Lemma prune_twice (p q : Node -> bool) (n : Node) :
  by_label q -> prune q (prune p n) = prune (fun x => p x || q x) n.
Proof.
  intros Hq. destruct n as [s|u ns ln attrs ch]; [reflexivity|].
  rewrite !prune_element, prune_list_twice by exact Hq. reflexivity.
Qed.

(** Removing the elements of a node list one by one prunes the tree by
    membership in the list. *)
Lemma forEach_remove_prune (targets : list Node) (n : Node) :
  forEach_remove targets n = prune (targeted targets) n.
Proof.
  unfold forEach_remove. revert n.
  induction targets as [|t ts IH]; intros n; cbn [fold_left].
  - destruct n as [s|u ns ln attrs ch]; [reflexivity|].
    rewrite prune_element. f_equal. symmetry. apply prune_list_none.
  - rewrite IH. unfold remove.
    destruct (uid_of t) as [i|] eqn:Hi.
    + rewrite detach_prune, prune_twice by auto with dom.
      apply prune_of_list. intros l. apply prune_list_ext; auto with dom.
      * intros s. cbn. apply targeted_on_elements.
      * intros x _. unfold targeted at 2. cbn [existsb]. rewrite Hi. reflexivity.
    + apply prune_of_list. intros l. apply prune_list_ext; auto with dom.
      intros x _. unfold targeted at 2. cbn [existsb]. rewrite Hi. reflexivity.
Qed.

Lemma elements_are_elements (l : list Node) (x : Node) :
  In x (elements_of l) -> exists i, uid_of x = Some i.
Proof.
  enough (Hn : forall n, In x (elements n) -> exists i, uid_of x = Some i).
  { unfold elements_of. intros H. apply in_flat_map in H as (c & _ & Hc).
    exact (Hn c Hc). }
  intros n.
  induction n as [s|u ns ln attrs ch IH] using Node_ind_children; [intros []|].
  rewrite elements_element. intros [<-|H]; [exists u; reflexivity|].
  unfold elements_of in H. apply in_flat_map in H as (c & Hc & Hx).
  rewrite List.Forall_forall in IH. exact (IH c Hc Hx).
Qed.

Lemma uid_unique (L : list Node) (x y : Node) :
  NoDup (map uid_of L) -> In x L -> In y L -> uid_of x = uid_of y -> x = y.
Proof.
  induction L as [|a L IH]; [intros _ []|].
  cbn [map]. intros Hnd Hx Hy Hxy. apply NoDup_cons in Hnd as [Ha Hnd].
  destruct Hx as [<-|Hx], Hy as [<-|Hy].
  - reflexivity.
  - exfalso. apply Ha. rewrite Hxy. apply list_elem_of_In, in_map, Hy.
  - exfalso. apply Ha. rewrite <- Hxy. apply list_elem_of_In, in_map, Hx.
  - exact (IH Hnd Hx Hy Hxy).
Qed.

(** With distinct identities, an element is referenced by the list of
    the matching elements exactly when it matches. *)
Lemma targeted_matching (p : Node -> bool) (l : list Node) (x : Node) :
  NoDup (map uid_of (elements_of l)) ->
  In x (elements_of l) ->
  targeted (List.filter p (elements_of l)) x = p x.
Proof.
  intros Hnd Hx. destruct (elements_are_elements l x Hx) as [i Hi].
  destruct (p x) eqn:Hpx.
  - unfold targeted. apply existsb_exists. exists x. split.
    + apply filter_In. split; assumption.
    + rewrite Hi. destruct x; [discriminate|]. cbn in *.
      injection Hi as ->. apply Nat.eqb_refl.
  - destruct (targeted (List.filter p (elements_of l)) x) eqn:Ht; [|reflexivity].
    unfold targeted in Ht. apply existsb_exists in Ht as (t & Hin & Hu).
    apply filter_In in Hin as [Hin Hpt].
    destruct (uid_of t) as [j|] eqn:Hj; [|discriminate].
    assert (Hsame : uid_of t = uid_of x).
    { rewrite Hj, Hi. destruct x; [discriminate|]. cbn in *.
      apply Nat.eqb_eq in Hu. injection Hi as ->. congruence. }
    rewrite (uid_unique _ t x Hnd Hin Hx Hsame) in Hpt. congruence.
Qed.

(** [querySelectorAll] followed by [forEach(x => x.remove())] prunes
    the container by the selector. *)
Lemma remove_all_matching (sel : Selector) u ns ln attrs ch :
  NoDup (map uid_of (elements_of ch)) ->
  forEach_remove (querySelectorAll sel (Element u ns ln attrs ch))
                 (Element u ns ln attrs ch) =
    Element u ns ln attrs (prune_list (matches sel) ch).
Proof.
  intros Hnd. rewrite forEach_remove_prune, prune_element. f_equal.
  unfold querySelectorAll. cbn [descendants].
  apply prune_list_ext; auto with dom.
  intros x Hx. apply targeted_matching; assumption.
Qed.

(** The identities left after pruning are among those before, in the
    same order. *)
Lemma uids_prune_sublist (p : Node -> bool) (l : list Node) :
  sublist (map uid_of (elements_of (prune_list p l))) (map uid_of (elements_of l)).
Proof.
  enough (Hn : forall n, sublist (map uid_of (elements (prune p n)))
                                 (map uid_of (elements n))).
  { induction l as [|c r IH]; [constructor|]. cbn [prune_list].
    rewrite elements_of_cons, map_app.
    destruct (p c).
    - apply sublist_inserts_l, IH.
    - rewrite elements_of_cons, map_app. apply sublist_app; [apply Hn | exact IH]. }
  intros n.
  induction n as [s|u ns ln attrs ch IH] using Node_ind_children; [constructor|].
  rewrite prune_element, !elements_element. cbn [map uid_of].
  apply sublist_skip.
  induction IH as [|c r Hc _ IHr]; [constructor|]. cbn [prune_list].
  rewrite elements_of_cons, map_app.
  destruct (p c).
  - apply sublist_inserts_l, IHr.
  - rewrite elements_of_cons, map_app. apply sublist_app; [exact Hc | exact IHr].
Qed.

Lemma removed_by_sanitizer_by_label : by_label removed_by_sanitizer.
Proof.
  intros n m H. unfold removed_by_sanitizer.
  rewrite (matches_by_label sel_scripts n m H), (matches_by_label sel_styles n m H).
  reflexivity.
Qed.

(** The sanitizer prunes the container by its two selectors. *)
Lemma sanitize_prune u ns ln attrs ch :
  NoDup (map uid_of (elements_of ch)) ->
  sanitize (Element u ns ln attrs ch) =
    Element u ns ln attrs (prune_list removed_by_sanitizer ch).
Proof.
  intros Hnd. unfold sanitize. cbn zeta.
  rewrite (remove_all_matching sel_scripts) by exact Hnd.
  rewrite (remove_all_matching sel_styles).
  - rewrite prune_list_twice by auto with dom. reflexivity.
  - exact (sublist_NoDup _ _ Hnd (uids_prune_sublist (matches sel_scripts) ch)).
Qed.

(** No element that satisfies [p] is left in a pruned list. *)
Lemma prune_list_clean (p : Node -> bool) (l : list Node) (x : Node) :
  by_label p -> In x (elements_of (prune_list p l)) -> p x = false.
Proof.
  intros Hp.
  enough (Hn : forall n, p n = false -> In x (elements (prune p n)) -> p x = false).
  { induction l as [|c r IH]; [intros []|]. cbn [prune_list].
    destruct (p c) eqn:Hc; [exact IH|].
    rewrite elements_of_cons. intros H. apply in_app_or in H as [H|H].
    - exact (Hn c Hc H).
    - exact (IH H). }
  intros n.
  induction n as [s|u ns ln attrs ch IH] using Node_ind_children; [intros _ []|].
  intros Hn. rewrite prune_element, elements_element. intros [<-|H].
  - rewrite <- Hn. apply Hp. reflexivity.
  - clear Hn. induction IH as [|c r Hc _ IHr]; [destruct H|].
    cbn [prune_list] in H. destruct (p c) eqn:Hpc; [exact (IHr H)|].
    rewrite elements_of_cons in H. apply in_app_or in H as [H|H].
    + exact (Hc eq_refl H).
    + exact (IHr H).
Qed.

Lemma with_ancestors_element (anc : list Node) u ns ln attrs ch :
  with_ancestors anc (Element u ns ln attrs ch) =
    (anc, Element u ns ln attrs ch)
      :: flat_map (with_ancestors (Element u ns ln attrs ch :: anc)) ch.
Proof. reflexivity. Qed.

(** Under an ancestor that satisfies [p] nothing is clear of [p]. *)
Lemma nothing_clear_below (p : Node -> bool) (n : Node) (anc : list Node) :
  forallb (fun a => negb (p a)) anc = false ->
  List.filter (clear_of p) (with_ancestors anc n) = [].
Proof.
  revert anc.
  induction n as [s|u ns ln attrs ch IH] using Node_ind_children;
    intros anc Hanc; [reflexivity|].
  rewrite with_ancestors_element. cbn [List.filter].
  unfold clear_of at 1. cbn [fst snd]. rewrite Hanc, andb_false_r.
  set (n := Element u ns ln attrs ch).
  assert (Hn : forallb (fun a => negb (p a)) (n :: anc) = false).
  { cbn [forallb]. rewrite Hanc. apply andb_false_r. }
  clearbody n.
  induction IH as [|c r Hc _ IHr]; [reflexivity|].
  cbn [flat_map]. rewrite List.filter_app, (Hc _ Hn), IHr. reflexivity.
Qed.

Lemma nothing_clear_below_list (p : Node -> bool) (l : list Node) (anc : list Node) :
  forallb (fun a => negb (p a)) anc = false ->
  List.filter (clear_of p) (flat_map (with_ancestors anc) l) = [].
Proof.
  intros Hanc. induction l as [|c r IH]; [reflexivity|].
  cbn [flat_map]. rewrite List.filter_app, IH, app_nil_r.
  apply nothing_clear_below, Hanc.
Qed.

Lemma nothing_clear_in (p : Node -> bool) (n : Node) (anc : list Node) :
  p n = true -> List.filter (clear_of p) (with_ancestors anc n) = [].
Proof.
  intros Hn. destruct n as [s|u ns ln attrs ch]; [reflexivity|].
  rewrite with_ancestors_element. cbn [List.filter].
  unfold clear_of at 1. cbn [fst snd]. rewrite Hn. cbn [negb andb].
  apply nothing_clear_below_list. cbn [forallb]. rewrite Hn. reflexivity.
Qed.

(** The elements left after pruning are, in document order and label by
    label, the elements that are clear of [p]. *)
Lemma prune_list_keeps_clear (p : Node -> bool) (l : list Node) (anc : list Node) :
  forallb (fun a => negb (p a)) anc = true ->
  map label (elements_of (prune_list p l)) =
    map (fun x => label (snd x))
        (List.filter (clear_of p) (flat_map (with_ancestors anc) l)).
Proof.
  enough (Hn : forall n anc,
             forallb (fun a => negb (p a)) anc = true ->
             p n = false ->
             map label (elements (prune p n)) =
               map (fun x => label (snd x))
                   (List.filter (clear_of p) (with_ancestors anc n))).
  { intros Hanc. induction l as [|c r IH]; [reflexivity|].
    cbn [prune_list flat_map]. rewrite List.filter_app, map_app.
    destruct (p c) eqn:Hc.
    - rewrite (nothing_clear_in p c anc Hc). exact IH.
    - rewrite elements_of_cons, map_app, (Hn c anc Hanc Hc), IH. reflexivity. }
  intros n.
  induction n as [s|u ns ln attrs ch IH] using Node_ind_children;
    intros anc0 Hanc Hn; [reflexivity|].
  rewrite prune_element, elements_element, with_ancestors_element.
  cbn [List.filter]. unfold clear_of at 1. cbn [fst snd].
  rewrite Hn, Hanc. cbn [negb andb map snd label]. f_equal.
  set (n := Element u ns ln attrs ch) in *.
  assert (Hanc' : forallb (fun a => negb (p a)) (n :: anc0) = true).
  { cbn [forallb]. rewrite Hn, Hanc. reflexivity. }
  clearbody n.
  induction IH as [|c r Hc _ IHr]; [reflexivity|].
  cbn [prune_list flat_map]. rewrite List.filter_app, map_app.
  destruct (p c) eqn:Hpc.
  - rewrite (nothing_clear_in p c (n :: anc0) Hpc). exact IHr.
  - rewrite elements_of_cons, map_app, (Hc _ Hanc' eq_refl), IHr. reflexivity.
Qed.

(** What the code removes is a script element, a style element or a
    stylesheet link in the spec's sense. *)
Lemma removed_is_script_style_or_stylesheet_link (n : Node) :
  removed_by_sanitizer n = true -> script_style_or_stylesheet_link n = true.
Proof.
  destruct n as [s|u ns ln attrs ch]; [discriminate|].
  unfold removed_by_sanitizer, script_style_or_stylesheet_link, stylesheet_link,
    sel_scripts, sel_styles, matches.
  cbn [existsb matches_compound].
  destruct (String.eqb ln "script"); [reflexivity|].
  destruct (String.eqb ln "style"); [reflexivity|].
  destruct (String.eqb ln "link"); [|discriminate].
  destruct (getAttribute "rel" attrs) as [rel|]; [|discriminate].
  cbn [orb andb]. rewrite !orb_false_r.
  unfold attr_value_matches.
  intros H.
  assert (Hrel : Js.lower rel = "stylesheet").
  { destruct ns; cbn in H; apply String.eqb_eq in H;
      [exact H | subst rel; reflexivity | subst rel; reflexivity]. }
  rewrite Hrel. reflexivity.
Qed.

Lemma script_style_or_stylesheet_link_by_label :
  by_label script_style_or_stylesheet_link.
Proof.
  intros n m H. unfold script_style_or_stylesheet_link.
  rewrite (matches_by_label sel_scripts n m H),
    (matches_by_label [TypeSel "style"] n m H).
  f_equal.
  destruct n as [s|u ns ln attrs ch], m as [s'|u' ns' ln' attrs' ch'];
    cbn in H; try discriminate; [reflexivity|].
  injection H as _ _ -> ->. reflexivity.
Qed.

(** Pruning by [p] changes nothing among the elements that are clear of
    a wider predicate [q]: they are the same, label by label and in the
    same order, before and after. *)
Lemma prune_list_same_clear (p q : Node -> bool) :
  by_label q ->
  (forall x, p x = true -> q x = true) ->
  forall (l : list Node) (anc anc' : list Node),
    forallb (fun a => negb (q a)) anc = forallb (fun a => negb (q a)) anc' ->
    map (fun x => label (snd x))
        (List.filter (clear_of q) (flat_map (with_ancestors anc) (prune_list p l))) =
    map (fun x => label (snd x))
        (List.filter (clear_of q) (flat_map (with_ancestors anc') l)).
Proof.
  intros Hq Hpq.
  enough (Hn : forall n anc anc',
             forallb (fun a => negb (q a)) anc = forallb (fun a => negb (q a)) anc' ->
             map (fun x => label (snd x))
                 (List.filter (clear_of q) (with_ancestors anc (prune p n))) =
             map (fun x => label (snd x))
                 (List.filter (clear_of q) (with_ancestors anc' n))).
  { intros l. induction l as [|c r IH]; intros anc anc' Hanc; [reflexivity|].
    cbn [prune_list flat_map]. rewrite List.filter_app, map_app.
    destruct (p c) eqn:Hc.
    - rewrite (nothing_clear_in q c anc' (Hpq c Hc)). cbn [map app].
      apply IH, Hanc.
    - cbn [flat_map]. rewrite List.filter_app, map_app, (Hn c anc anc' Hanc),
        (IH anc anc' Hanc). reflexivity. }
  intros n.
  induction n as [s|u ns ln attrs ch IH] using Node_ind_children;
    intros anc anc' Hanc; [reflexivity|].
  rewrite prune_element, !with_ancestors_element. cbn [List.filter].
  assert (Hqn : q (Element u ns ln attrs (prune_list p ch)) =
                q (Element u ns ln attrs ch)) by (apply Hq; reflexivity).
  assert (Hlab : label (Element u ns ln attrs (prune_list p ch)) =
                 label (Element u ns ln attrs ch)) by reflexivity.
  set (n' := Element u ns ln attrs (prune_list p ch)) in *.
  set (n := Element u ns ln attrs ch) in *.
  assert (Hanc' : forallb (fun a => negb (q a)) (n' :: anc) =
                  forallb (fun a => negb (q a)) (n :: anc')).
  { cbn [forallb]. rewrite Hqn, Hanc. reflexivity. }
  assert (Hch : map (fun x => label (snd x))
                  (List.filter (clear_of q)
                     (flat_map (with_ancestors (n' :: anc)) (prune_list p ch))) =
                map (fun x => label (snd x))
                  (List.filter (clear_of q)
                     (flat_map (with_ancestors (n :: anc')) ch))).
  { clearbody n n'.
    induction IH as [|c r Hc _ IHr]; [reflexivity|].
    cbn [prune_list flat_map]. rewrite List.filter_app, map_app.
    destruct (p c) eqn:Hpc.
    - rewrite (nothing_clear_in q c (n :: anc') (Hpq c Hpc)). cbn [map app].
      exact IHr.
    - cbn [flat_map]. rewrite List.filter_app, map_app, (Hc _ _ Hanc'), IHr.
      reflexivity. }
  change (clear_of q (anc, n'))
    with (negb (q n') && forallb (fun a => negb (q a)) anc).
  change (clear_of q (anc', n))
    with (negb (q n) && forallb (fun a => negb (q a)) anc').
  rewrite Hqn, Hanc.
  destruct (negb (q n) && forallb (fun a => negb (q a)) anc'); cbn [map snd].
  - rewrite Hlab, Hch. reflexivity.
  - exact Hch.
Qed.

End Sanitizer.

(** C6, as amended: for a non-empty HTML input the container appended to
    the content region holds no script element, no style element and no
    link element whose [rel] is the word [stylesheet]; and the elements
    that are neither a script element, a style element or a stylesheet
    link nor nested inside one are all preserved, in document order and
    with identity, name and attributes unchanged.  An element nested
    inside a removed element leaves with it.  What becomes of a link
    whose [rel] lists [stylesheet] among other words is not part of the
    statement. *)
Theorem C6_sanitizer_removes_and_keeps_order (B : Browser) (html : string)
    (w : World) (l : list Child) :
  Js.truthy html = true ->
  content w = Some l ->
  NoDup (map Dom.uid_of (Dom.elements_of (parse_fragment B html))) ->
  exists container,
    content (snd (renderContentSafely B html w)) =
      Some (l ++ [RenderedContent container]) /\
    (forall x, In x (Dom.descendants container) ->
       Dom.matches sel_scripts x = false /\ Dom.matches sel_styles x = false) /\
    map (fun x => Dom.label (snd x))
        (List.filter (Dom.clear_of script_style_or_stylesheet_link)
           (flat_map (Dom.with_ancestors []) (Dom.childNodes container))) =
    map (fun x => Dom.label (snd x))
        (List.filter (Dom.clear_of script_style_or_stylesheet_link)
           (flat_map (Dom.with_ancestors []) (parse_fragment B html))).
Proof.
  intros Hhtml Hl Hnd.
  exists (sanitize (Dom.set_children (parse_fragment B html)
                      (Dom.createElement 0 "div"))).
  split; [|split].
  - rewrite renderContentSafely_content, Hhtml, Hl. reflexivity.
  - intros x. cbn [Dom.set_children Dom.createElement].
    rewrite sanitize_prune by exact Hnd. cbn [Dom.descendants]. intros Hx.
    apply prune_list_clean in Hx; [|apply removed_by_sanitizer_by_label].
    unfold removed_by_sanitizer in Hx. apply orb_false_iff in Hx. exact Hx.
  - cbn [Dom.set_children Dom.createElement].
    rewrite sanitize_prune by exact Hnd. cbn [Dom.childNodes].
    apply prune_list_same_clear.
    + apply script_style_or_stylesheet_link_by_label.
    + apply removed_is_script_style_or_stylesheet_link.
    + reflexivity.
Qed.

Lemma C6_sanitizer_removes_and_keeps_order_witness :
  exists container,
    content (snd (renderContentSafely (Sample.browser None) Sample.page_html
                    Sample.world0)) =
      Some ([] ++ [RenderedContent container]) /\
    (forall x, In x (Dom.descendants container) ->
       Dom.matches sel_scripts x = false /\ Dom.matches sel_styles x = false) /\
    map (fun x => Dom.label (snd x))
        (List.filter (Dom.clear_of script_style_or_stylesheet_link)
           (flat_map (Dom.with_ancestors []) (Dom.childNodes container))) =
    map (fun x => Dom.label (snd x))
        (List.filter (Dom.clear_of script_style_or_stylesheet_link)
           (flat_map (Dom.with_ancestors [])
              (parse_fragment (Sample.browser None) Sample.page_html))).
Proof.
  apply (C6_sanitizer_removes_and_keeps_order (Sample.browser None)
           Sample.page_html Sample.world0 [] eq_refl eq_refl).
  apply (bool_decide_unpack _). vm_compute. exact I.
Defined.

(** C6 as stated fails: in the fragment of
    [<svg><style><g></g></style></svg>] the [g] element is none of the
    three kinds, and it is not in the sanitized container. *)
Lemma C6_counterexample :
  ~ (forall n,
       In n (Dom.descendants Sample.svg_container) ->
       removed_by_sanitizer n = false ->
       In (Dom.label n)
          (map Dom.label (Dom.descendants (sanitize Sample.svg_container)))).
Proof.
  intros H.
  specialize (H (Dom.Element 3 Dom.SVG "g" [] [])).
  cbn in H. destruct H as [H|[]]; [tauto | reflexivity | discriminate H].
Qed.

(** * Further properties of the code *)

(** ** validateUrl *)

(** X1: the validator accepts an input exactly when the URL constructor
    parses it and the protocol of the parsed URL starts with [http]; what
    it returns is then the href of the parsed URL, and an accepting run
    changes nothing of the world, console included. *)
Theorem X1_validateUrl_accepts_iff (B : Browser) (input v : string) (w : World) :
  (fst (validateUrl B input w) = Ok v <->
     exists u, new_URL B input = Some u /\
               Js.startsWith "http" (protocol u) = true /\
               v = href u) /\
  (fst (validateUrl B input w) = Ok v -> snd (validateUrl B input w) = w).
Proof.
  destruct (validateUrl_cases B input w) as [(u & Hp & Hs & Hok) | (e & He & _)].
  - rewrite Hok. cbn [fst snd]. split; [split|reflexivity].
    + intros [= <-]. exists u. auto.
    + intros (u' & Hp' & _ & ->). rewrite Hp in Hp'. injection Hp' as <-. reflexivity.
  - rewrite He. split; [split|discriminate]; [discriminate|].
    intros (u & Hp & Hs & _).
    rewrite (validateUrl_accepts B input u w Hp Hs) in He. discriminate.
Qed.

(** X2: a rejecting run of the validator writes the one console line
    [Invalid URL:] and changes nothing else; the code of the failure is
    [invalid_url] exactly when the input does not parse, and
    [invalid_protocol] exactly when it parses. *)
Theorem X2_validateUrl_rejection (B : Browser) (input : string) (w : World)
    (e : JsError) :
  fst (validateUrl B input w) = Throw e ->
  snd (validateUrl B input w) = with_console w "Invalid URL:" /\
  (code e = Some (CodeString "invalid_url") <-> new_URL B input = None) /\
  (code e = Some (CodeString "invalid_protocol") <-> exists u, new_URL B input = Some u).
Proof.
  unfold validateUrl. run_steps.
  destruct (new_URL B input) as [u|]; cbn.
  - destruct (Js.startsWith "http" (protocol u)); cbn; [discriminate|].
    intros [= <-]. cbn. split; [reflexivity|]. split; split; try discriminate; eauto.
  - intros [= <-]. cbn. split; [reflexivity|]. split; split; try discriminate; auto.
    intros [u Hu]. discriminate.
Qed.

Lemma X2_validateUrl_rejection_witness :
  snd (validateUrl (Sample.browser None) "file:///etc/passwd" Sample.world0) =
    with_console Sample.world0 "Invalid URL:".
Proof.
  destruct (X2_validateUrl_rejection (Sample.browser None) "file:///etc/passwd"
              Sample.world0
              (mkError (Some (CodeString "invalid_protocol")) None "Invalid protocol") eq_refl)
    as [H _].
  exact H.
Defined.

(** ** buildArchiveUrl *)

Lemma hex_digit_inj (a b : nat) :
  (a < 16)%nat -> (b < 16)%nat -> Js.hex_digit a = Js.hex_digit b -> a = b.
Proof.
  intros Ha Hb.
  do 16 (destruct a as [|a]; [do 16 (destruct b as [|b]; [first [reflexivity | discriminate]|]); lia|]).
  lia.
Qed.

Lemma hex_digit_unreserved (n : nat) : Js.uri_unreserved (Js.hex_digit n) = true.
Proof. do 16 (destruct n as [|n]; [reflexivity|]). reflexivity. Qed.

Lemma nat_of_ascii_bound (c : ascii) : (nat_of_ascii c < 256)%nat.
Proof. apply nat_ascii_bounded. Qed.

Lemma string_append_inj_l (p a b : string) :
  (p ++ a)%string = (p ++ b)%string -> a = b.
Proof.
  induction p as [|c p IH]; [intros H; exact H|].
  rewrite !append_cons. intros [= H]. exact (IH H).
Qed.

(** [encodeURIComponent] loses nothing: different texts have different
    encodings. *)
Lemma encodeURIComponent_inj (a b : string) :
  Js.encodeURIComponent a = Js.encodeURIComponent b -> a = b.
Proof.
  revert b. induction a as [|c1 r1 IH]; intros [|c2 r2]; cbn [Js.encodeURIComponent].
  - reflexivity.
  - destruct (Js.uri_unreserved c2); discriminate.
  - destruct (Js.uri_unreserved c1); discriminate.
  - destruct (Js.uri_unreserved c1) eqn:E1, (Js.uri_unreserved c2) eqn:E2.
    + intros [= -> H]. rewrite (IH _ H). reflexivity.
    + intros [= -> _]. discriminate E1.
    + intros [= <- _]. discriminate E2.
    + intros [= Hhi Hlo H]. rewrite (IH _ H). f_equal.
      pose proof (nat_of_ascii_bound c1) as B1.
      pose proof (nat_of_ascii_bound c2) as B2.
      change (Js.hex_digit (nat_of_ascii c1 / 16) =
              Js.hex_digit (nat_of_ascii c2 / 16)) in Hhi.
      change (Js.hex_digit (nat_of_ascii c1 mod 16) =
              Js.hex_digit (nat_of_ascii c2 mod 16)) in Hlo.
      apply hex_digit_inj in Hhi;
        [|apply Nat.Div0.div_lt_upper_bound; lia|apply Nat.Div0.div_lt_upper_bound; lia].
      apply hex_digit_inj in Hlo; [|apply Nat.mod_upper_bound; lia|apply Nat.mod_upper_bound; lia].
      assert (Hn : nat_of_ascii c1 = nat_of_ascii c2).
      { rewrite (Nat.div_mod_eq (nat_of_ascii c1) 16),
                (Nat.div_mod_eq (nat_of_ascii c2) 16), Hhi, Hlo. reflexivity. }
      rewrite <- (ascii_nat_embedding c1), <- (ascii_nat_embedding c2), Hn.
      reflexivity.
Qed.

(** X3: the request builder is injective: two validated URLs that differ
    never get the same archive request URL, hence never share a cache
    key. *)
Theorem X3_buildArchiveUrl_injective (a b : string) :
  buildArchiveUrl a = buildArchiveUrl b -> a = b.
Proof.
  unfold buildArchiveUrl. cbn zeta. intros H.
  apply string_append_inj_l in H. exact (encodeURIComponent_inj a b H).
Qed.

Lemma X3_buildArchiveUrl_injective_witness :
  Sample.page = "https://example.com/page".
Proof.
  exact (X3_buildArchiveUrl_injective Sample.page "https://example.com/page" eq_refl).
Defined.

Lemma every_excludes (p : ascii -> bool) (c : ascii) (s : string) :
  Js.every p s = true -> p c = false ->
  Js.includes (String c EmptyString) s = false.
Proof.
  intros Hs Hc. induction s as [|a r IH]; [reflexivity|].
  cbn [Js.every] in Hs. apply andb_true_iff in Hs as [Ha Hr].
  rewrite includes_one_cons, (IH Hr).
  destruct (ascii_dec c a) as [<-|_]; [congruence | reflexivity].
Qed.

Lemma encodeURIComponent_charset (s : string) :
  Js.every (fun c => Js.uri_unreserved c || Ascii.eqb c "%")
           (Js.encodeURIComponent s) = true.
Proof.
  induction s as [|c r IH]; [reflexivity|]. cbn [Js.encodeURIComponent].
  destruct (Js.uri_unreserved c) eqn:E; cbn [Js.every].
  - rewrite E, IH. reflexivity.
  - rewrite !hex_digit_unreserved, IH. reflexivity.
Qed.

(** X4: the archive request URL is the fixed base followed by the
    encoded page URL, and the encoded part consists of unreserved
    characters and percent escapes only; none of the delimiters
    [&], [?], [#], [=] of the page URL appears in it, so the request has
    the two query parameters of the base and no more. *)
Theorem X4_buildArchiveUrl_single_value (url : string) :
  buildArchiveUrl url =
    ("https://archive.today/?run=1&url=" ++ Js.encodeURIComponent url)%string /\
  Js.every (fun c => Js.uri_unreserved c || Ascii.eqb c "%")
           (Js.encodeURIComponent url) = true /\
  Js.includes "&" (Js.encodeURIComponent url) = false /\
  Js.includes "?" (Js.encodeURIComponent url) = false /\
  Js.includes "#" (Js.encodeURIComponent url) = false /\
  Js.includes "=" (Js.encodeURIComponent url) = false.
Proof.
  pose proof (encodeURIComponent_charset url) as H.
  split; [reflexivity|]. split; [exact H|].
  repeat split; apply (every_excludes _ _ _ H); reflexivity.
Qed.

(** X5: the worker intercepts every request the page builds: a request
    for an archive request URL never passes through, whatever the page
    URL in it. *)
Theorem X5_worker_intercepts_archive_requests
    (network : ServiceWorker.Request -> option Fetch.Response) (url : string) :
  ServiceWorker.on_fetch network (ServiceWorker.mkRequest (buildArchiveUrl url)) =
    ServiceWorker.RespondWith
      (ServiceWorker.handleRequest network
         (ServiceWorker.mkRequest (buildArchiveUrl url))).
Proof.
  unfold ServiceWorker.on_fetch. cbn [ServiceWorker.url].
  replace (Js.startsWith "https://archive.today/" (buildArchiveUrl url)) with true;
    [reflexivity|].
  symmetry. unfold Js.startsWith, buildArchiveUrl. cbn zeta.
  apply prefix_app. reflexivity.
Qed.

(** ** fetchArchiveContent, cacheResponse, getCachedResponse, fetchWithCache *)

(** X6: every call of [fetchArchiveContent] makes exactly one network
    call, for the URL it was given, and touches neither the cache store
    nor the content region; it writes the console line [Fetch failed:]
    exactly when it throws.  The world after the call is the world
    before it with that one network call and, on a failure, that one
    console line. *)
Theorem X6_fetchArchiveContent_one_network_call (B : Browser) (url : string)
    (w : World) :
  snd (fetchArchiveContent B url w) =
    match fst (fetchArchiveContent B url w) with
    | Ok _ => with_event w (EvFetch url)
    | Throw _ => with_console (with_event w (EvFetch url)) "Fetch failed:"
    end /\
  fetch_count (snd (fetchArchiveContent B url w)) = S (fetch_count w) /\
  cache (snd (fetchArchiveContent B url w)) = cache w /\
  content (snd (fetchArchiveContent B url w)) = content w.
Proof.
  rewrite fetchArchiveContent_spec. cbn zeta.
  assert (Hcount : fetch_count (with_event w (EvFetch url)) = S (fetch_count w)).
  { rewrite fetch_count_with_event. reflexivity. }
  destruct (fetch B (fetch_count w) url) as [r|].
  - destruct (Fetch.ok r); cbn [negb].
    + destruct (declares_html r); cbn [fst snd];
        rewrite ?fetch_count_with_console, Hcount; auto.
    + cbn [fst snd]. rewrite fetch_count_with_console, Hcount. auto.
  - cbn [fst snd]. rewrite fetch_count_with_console, Hcount. auto.
Qed.

(** X7: what [fetchArchiveContent] throws.  A rejected fetch is rethrown
    as it is, with no code; a response with a failure status gives an
    error with code [http_error] that carries the numeric status of the
    response and the message [HTTP error! status: ] followed by that
    status in decimal; a successful response that does not declare HTML
    gives an error with code [invalid_content], no status and the
    message [Invalid content type]. *)
Theorem X7_fetchArchiveContent_errors (B : Browser) (url : string) (w : World) :
  (fetch B (fetch_count w) url = None ->
     fst (fetchArchiveContent B url w) = Throw Fetch.TypeError) /\
  (forall r, fetch B (fetch_count w) url = Some r ->
     Fetch.ok r = false ->
     fst (fetchArchiveContent B url w) =
       Throw (mkError (Some (CodeString "http_error")) (Some (Fetch.status r))
                      ("HTTP error! status: " ++
                       Js.number_toString (Fetch.status r)))) /\
  (forall r, fetch B (fetch_count w) url = Some r ->
     Fetch.ok r = true -> declares_html r = false ->
     fst (fetchArchiveContent B url w) =
       Throw (mkError (Some (CodeString "invalid_content")) None "Invalid content type")).
Proof.
  rewrite fetchArchiveContent_spec. cbn zeta. repeat split.
  - intros ->. reflexivity.
  - intros r -> Hok. rewrite Hok. reflexivity.
  - intros r -> Hok Hhtml. rewrite Hok, Hhtml. reflexivity.
Qed.

Lemma X7_fetchArchiveContent_errors_witness :
  fst (fetchArchiveContent (Sample.browser (Some Sample.not_found))
         Sample.archive_key Sample.world0) =
    Throw (mkError (Some (CodeString "http_error")) (Some 404%Z)
                   "HTTP error! status: 404").
Proof.
  destruct (X7_fetchArchiveContent_errors (Sample.browser (Some Sample.not_found))
              Sample.archive_key Sample.world0) as (_ & H & _).
  exact (H Sample.not_found eq_refl eq_refl).
Defined.

(** The cache store after [fetchWithCache]: as before, or, after a
    miss, with one entry added under the URL. *)
Lemma fetchWithCache_cache (B : Browser) (url : string) (w : World) :
  cache (snd (fetchWithCache B url w)) = cache w \/
  (cache w !! url = None /\
   exists r, cache (snd (fetchWithCache B url w)) = <[url := r]> (cache w)).
Proof.
  rewrite fetchWithCache_spec. cbn zeta.
  destruct (cache_rejects B (cache_ops w)); [left; reflexivity|].
  destruct (cache w !! url) as [c|] eqn:Hc; [left; reflexivity|].
  destruct (fetchArchiveContent_world B url (with_event w (EvCacheMatch url)))
    as (_ & Hcache & _).
  destruct (fetchArchiveContent B url (with_event w (EvCacheMatch url)))
    as [[body|e] w1]; cbn [fst snd] in *.
  - destruct (cache_rejects B (cache_ops w1)).
    + left. exact Hcache.
    + right. split; [reflexivity|]. eexists. cbn. rewrite Hcache. reflexivity.
  - left. rewrite Hcache. reflexivity.
Qed.

(** X8: the only change [fetchWithCache] can make to the cache store is
    to add an entry under its own URL when there was none: every entry
    under another key, and every entry that already exists, is left as
    it is; nothing is ever removed. *)
Theorem X8_fetchWithCache_keeps_entries (B : Browser) (url k : string) (w : World) :
  k <> url \/ is_Some (cache w !! k) ->
  cache (snd (fetchWithCache B url w)) !! k = cache w !! k.
Proof.
  intros Hk.
  destruct (fetchWithCache_cache B url w) as [-> | (Hmiss & r & ->)];
    [reflexivity|].
  apply lookup_insert_ne.
  destruct Hk as [Hk|[x Hx]]; [congruence|].
  intros ->. congruence.
Qed.

Lemma X8_fetchWithCache_keeps_entries_witness :
  cache (snd (fetchWithCache (Sample.browser (Some Sample.html_response))
                Sample.archive_key Sample.world0)) !! "other" =
    cache Sample.world0 !! "other".
Proof.
  apply (X8_fetchWithCache_keeps_entries (Sample.browser (Some Sample.html_response))
           Sample.archive_key "other" Sample.world0).
  left. discriminate.
Defined.

(** After a miss, with no cache operation rejecting, exactly one network
    call has been made. *)
Lemma fetchWithCache_miss_count (B : Browser) (url : string) (w : World) :
  (forall n, cache_rejects B n = None) ->
  cache w !! url = None ->
  fetch_count (snd (fetchWithCache B url w)) = S (fetch_count w).
Proof.
  intros Hrej Hmiss. rewrite fetchWithCache_spec. cbn zeta.
  rewrite Hrej, Hmiss.
  destruct (fetchArchiveContent_world B url (with_event w (EvCacheMatch url)))
    as (Ht & _).
  destruct (fetchArchiveContent B url (with_event w (EvCacheMatch url)))
    as [[body|e0] w1]; cbn [fst snd] in *.
  - rewrite Hrej. cbn [snd]. rewrite fetch_count_with_event. cbn [is_fetch].
    rewrite fetch_count_with_entry. unfold fetch_count. rewrite Ht.
    cbn [with_event trace]. rewrite !List.filter_app, !List.length_app. cbn. lia.
  - unfold fetch_count. rewrite Ht.
    cbn [with_event trace]. rewrite !List.filter_app, !List.length_app. cbn. lia.
Qed.

(** X9: failures are not cached.  When [fetchWithCache] throws, the
    cache store is as it was and at most one network call was made.
    When, moreover, no cache operation rejects, the lookup was a miss,
    exactly one network call was made, and the same call made again goes
    to the network again. *)
Theorem X9_fetchWithCache_failure_not_cached (B : Browser) (url : string)
    (w : World) (e : JsError) :
  fst (fetchWithCache B url w) = Throw e ->
  let first := fetchWithCache B url w in
  let second := fetchWithCache B url (snd first) in
  cache (snd first) = cache w /\
  fetch_count (snd first) <= S (fetch_count w) /\
  ((forall n, cache_rejects B n = None) ->
     cache w !! url = None /\
     fetch_count (snd first) = S (fetch_count w) /\
     fetch_count (snd second) = S (S (fetch_count w))).
Proof.
  intros He first second.
  assert (Hfirst : cache (snd first) = cache w /\
                   fetch_count (snd first) <= S (fetch_count w) /\
                   ((forall n, cache_rejects B n = None) -> cache w !! url = None)).
  { unfold first. revert He. rewrite fetchWithCache_spec. cbn zeta.
    destruct (cache_rejects B (cache_ops w)) as [rej|] eqn:Hr.
    { intros _. cbn [snd]. rewrite fetch_count_with_event. cbn [is_fetch].
      split; [reflexivity|]. split; [lia|].
      intros Hrej. rewrite Hrej in Hr. discriminate. }
    destruct (cache w !! url) as [c|]; [discriminate|].
    destruct (fetchArchiveContent_world B url (with_event w (EvCacheMatch url)))
      as (Ht & Hcache & _).
    assert (Hcount : forall w1,
              trace w1 = trace (with_event w (EvCacheMatch url)) ++ [EvFetch url] ->
              fetch_count w1 = S (fetch_count w)).
    { intros w1 Hw1. unfold fetch_count. rewrite Hw1. cbn [with_event trace].
      rewrite !List.filter_app, !List.length_app. cbn. lia. }
    destruct (fetchArchiveContent B url (with_event w (EvCacheMatch url)))
      as [[body|e0] w1]; cbn [fst snd] in *.
    - destruct (cache_rejects B (cache_ops w1)) as [rej|] eqn:Hr1; [|discriminate].
      intros _. cbn [snd]. rewrite fetch_count_with_event. cbn [is_fetch].
      rewrite (Hcount w1 Ht).
      split; [exact Hcache|]. split; [lia|]. reflexivity.
    - intros _. rewrite (Hcount w1 Ht).
      split; [exact Hcache|]. split; [lia|]. reflexivity. }
  destruct Hfirst as (Hsame & Hle & Hmiss).
  split; [exact Hsame|]. split; [exact Hle|].
  intros Hrej. specialize (Hmiss Hrej).
  split; [exact Hmiss|].
  split; [exact (fetchWithCache_miss_count B url w Hrej Hmiss)|].
  unfold second.
  rewrite (fetchWithCache_miss_count B url (snd first) Hrej);
    [|rewrite Hsame; exact Hmiss].
  f_equal. exact (fetchWithCache_miss_count B url w Hrej Hmiss).
Qed.

Lemma X9_fetchWithCache_failure_not_cached_witness :
  fetch_count
    (snd (fetchWithCache (Sample.browser (Some Sample.not_found)) Sample.archive_key
            (snd (fetchWithCache (Sample.browser (Some Sample.not_found))
                    Sample.archive_key Sample.world0)))) = 2.
Proof.
  destruct (X9_fetchWithCache_failure_not_cached
              (Sample.browser (Some Sample.not_found)) Sample.archive_key
              Sample.world0
              (mkError (Some (CodeString "http_error")) (Some 404%Z)
                       "HTTP error! status: 404")
              eq_refl) as (_ & _ & H).
  destruct (H (fun _ => eq_refl)) as (_ & _ & H2).
  exact H2.
Defined.

(** X10: what [cacheResponse] stores is what the fetcher reads back, as
    text.  With no cache operation rejecting: after
    [cacheResponse(url, content)], [getCachedResponse(url)] finds a
    response whose text is [content] decoded, that is [content] without
    a leading byte order mark, and [fetchWithCache(url)] returns that
    text without a network call; a second [cacheResponse] for the same
    URL replaces the first; entries under other keys stay as they are. *)
Theorem X10_cacheResponse_round_trip (B : Browser) (url content : string)
    (w : World) :
  (forall n, cache_rejects B n = None) ->
  let stored := snd (cacheResponse B url content w) in
  (exists r, fst (getCachedResponse B url stored) = Ok (Some r) /\
             Fetch.text r = Fetch.utf8_decode content) /\
  fst (fetchWithCache B url stored) = Ok (Fetch.utf8_decode content) /\
  fetch_count (snd (fetchWithCache B url stored)) = fetch_count w /\
  (forall earlier,
     fst (fetchWithCache B url
            (snd (cacheResponse B url content
                    (snd (cacheResponse B url earlier w)))))
       = Ok (Fetch.utf8_decode content)) /\
  (forall k, k <> url -> cache stored !! k = cache w !! k).
Proof.
  intros Hrej. cbn zeta. rewrite cacheResponse_spec, Hrej. cbn [snd].
  assert (Hlook : forall w0 c,
            cache (with_event
                     (with_entry w0 url
                        (Fetch.mkResponse 200 EmptyString
                           [("content-type", "text/plain;charset=UTF-8")] (Some c)))
                     (EvCachePut url)) !! url =
            Some (Fetch.mkResponse 200 EmptyString
                    [("content-type", "text/plain;charset=UTF-8")] (Some c))).
  { intros w0 c. cbn. apply lookup_insert_eq. }
  split; [|split; [|split; [|split]]].
  - eexists. split.
    + unfold getCachedResponse, cache_match. rewrite Hrej. cbn [fst].
      rewrite Hlook. reflexivity.
    + reflexivity.
  - rewrite fetchWithCache_spec. cbn zeta. rewrite Hrej, Hlook. reflexivity.
  - rewrite fetchWithCache_spec. cbn zeta. rewrite Hrej, Hlook. cbn [snd].
    rewrite !fetch_count_with_event. cbn [is_fetch].
    apply fetch_count_with_entry.
  - intros earlier. rewrite !cacheResponse_spec, !Hrej. cbn [snd].
    rewrite fetchWithCache_spec. cbn zeta. rewrite Hrej, Hlook. reflexivity.
  - intros k Hk. cbn. apply lookup_insert_ne. congruence.
Qed.

Lemma X10_cacheResponse_round_trip_witness :
  fst (fetchWithCache (Sample.browser None) Sample.archive_key
         (snd (cacheResponse (Sample.browser None) Sample.archive_key
                 (Fetch.BOM ++ "<p>stored</p>") Sample.world0))) =
    Ok "<p>stored</p>".
Proof.
  destruct (X10_cacheResponse_round_trip (Sample.browser None) Sample.archive_key
              (Fetch.BOM ++ "<p>stored</p>") Sample.world0 (fun _ => eq_refl))
    as (_ & H & _).
  exact H.
Defined.

(** ** renderContentSafely *)

(** X11: the renderer's two local failures are logged and nothing more.
    On an empty text it writes the console line [No content to render]
    and does nothing else; on a text that is not empty, with the content
    region absent, it writes [Content container not found] and does
    nothing else.  In every case it returns normally and touches neither
    the cache store nor the trace of network and cache operations. *)
Theorem X11_renderer_local_failures (B : Browser) (html : string) (w : World) :
  (Js.truthy html = false ->
     renderContentSafely B html w = (Ok tt, with_console w "No content to render")) /\
  (Js.truthy html = true -> content w = None ->
     renderContentSafely B html w =
       (Ok tt, with_console w "Content container not found")) /\
  fst (renderContentSafely B html w) = Ok tt /\
  cache (snd (renderContentSafely B html w)) = cache w /\
  trace (snd (renderContentSafely B html w)) = trace w.
Proof.
  rewrite renderContentSafely_spec. repeat split.
  - intros ->. reflexivity.
  - intros -> ->. reflexivity.
  - cbn [snd]. destruct (Js.truthy html); [destruct (content w)|]; reflexivity.
  - cbn [snd]. destruct (Js.truthy html); [destruct (content w)|]; reflexivity.
Qed.

Lemma X11_renderer_local_failures_witness :
  renderContentSafely (Sample.browser None) EmptyString Sample.world0 =
    (Ok tt, with_console Sample.world0 "No content to render").
Proof.
  destruct (X11_renderer_local_failures (Sample.browser None) EmptyString
              Sample.world0) as [H _].
  exact (H eq_refl).
Defined.

Lemma filter_none {A} (p : A -> bool) (l : list A) :
  (forall x, In x l -> p x = false) -> List.filter p l = [].
Proof.
  induction l as [|a l IH]; [reflexivity|]. intros H. cbn [List.filter].
  rewrite (H a (or_introl eq_refl)). apply IH. intros x Hx. apply H. right. exact Hx.
Qed.

(** When the selector matches no descendant, the node list is empty
    and the removal pass leaves the container as it is. *)
Lemma remove_none_matching (sel : Dom.Selector) (container : Dom.Node) :
  (forall x, In x (Dom.descendants container) -> Dom.matches sel x = false) ->
  Dom.forEach_remove (Dom.querySelectorAll sel container) container = container.
Proof.
  intros H. unfold Dom.querySelectorAll. rewrite (filter_none _ _ H). reflexivity.
Qed.

(** A container with nothing to remove comes out of the sanitizer as it
    went in. *)
Lemma sanitize_clean (container : Dom.Node) :
  (forall x, In x (Dom.descendants container) -> removed_by_sanitizer x = false) ->
  sanitize container = container.
Proof.
  intros H. unfold sanitize. cbn zeta.
  rewrite (remove_none_matching sel_scripts), (remove_none_matching sel_styles);
    [reflexivity| |];
    intros x Hx; specialize (H x Hx); unfold removed_by_sanitizer in H;
    apply orb_false_iff in H; tauto.
Qed.

(** X12: a container none of whose elements is matched by [script],
    [style] or [link[rel="stylesheet"]] is left exactly as it is by the
    sanitizer: text, attributes and nesting are all kept. *)
Theorem X12_sanitize_leaves_clean_markup (container : Dom.Node) :
  (forall x, In x (Dom.descendants container) -> removed_by_sanitizer x = false) ->
  sanitize container = container.
Proof.
  intros H.
  assert (Hscripts : forall x, In x (Dom.descendants container) ->
                               Dom.matches sel_scripts x = false).
  { intros x Hx. specialize (H x Hx). unfold removed_by_sanitizer in H.
    apply orb_false_iff in H. tauto. }
  assert (Hstyles : forall x, In x (Dom.descendants container) ->
                              Dom.matches sel_styles x = false).
  { intros x Hx. specialize (H x Hx). unfold removed_by_sanitizer in H.
    apply orb_false_iff in H. tauto. }
  unfold sanitize. cbn zeta.
  rewrite (remove_none_matching sel_scripts container Hscripts).
  exact (remove_none_matching sel_styles container Hstyles).
Qed.

Lemma X12_sanitize_leaves_clean_markup_witness :
  sanitize (Dom.Element 0 Dom.HTML "div" []
              [Dom.Element 1 Dom.HTML "p" [("onclick", "run()")] [Dom.Text "hi"]]) =
    Dom.Element 0 Dom.HTML "div" []
      [Dom.Element 1 Dom.HTML "p" [("onclick", "run()")] [Dom.Text "hi"]].
Proof.
  apply X12_sanitize_leaves_clean_markup.
  intros x [<-|[]]. reflexivity.
Defined.

(** X13: sanitizing is idempotent: a sanitized container has nothing
    left to remove, and sanitizing it again changes nothing. *)
Theorem X13_sanitize_idempotent u ns ln attrs (ch : list Dom.Node) :
  NoDup (map Dom.uid_of (Dom.elements_of ch)) ->
  sanitize (sanitize (Dom.Element u ns ln attrs ch)) =
    sanitize (Dom.Element u ns ln attrs ch).
Proof.
  intros Hnd. rewrite (sanitize_prune u ns ln attrs ch Hnd).
  apply sanitize_clean. cbn [Dom.descendants]. intros x Hx.
  exact (prune_list_clean removed_by_sanitizer ch x
           removed_by_sanitizer_by_label Hx).
Qed.

Lemma X13_sanitize_idempotent_witness :
  sanitize (sanitize (Dom.Element 0 Dom.HTML "div" [] Sample.page_fragment)) =
    sanitize (Dom.Element 0 Dom.HTML "div" [] Sample.page_fragment).
Proof.
  apply X13_sanitize_idempotent.
  apply (bool_decide_unpack _). vm_compute. exact I.
Defined.

(** X14: what the sanitizer removes is decided by the name of an
    element and, for [link], by its [rel] attribute alone.  An element
    is matched exactly when it is named [script], or named [style], or
    named [link] with a [rel] attribute whose value is [stylesheet]
    (compared without regard to ASCII case on an HTML element, exactly
    otherwise).  No other attribute, an event handler for instance, and
    no other name makes an element go; a [link] whose [rel] holds more
    than the one word stays. *)
Theorem X14_removed_by_sanitizer_iff u ns ln attrs (ch : list Dom.Node) :
  removed_by_sanitizer (Dom.Element u ns ln attrs ch) = true <->
  ln = "script" \/ ln = "style" \/
  (ln = "link" /\
   exists rel, Dom.getAttribute "rel" attrs = Some rel /\
               match ns with
               | Dom.HTML => Js.lower rel = "stylesheet"
               | _ => rel = "stylesheet"
               end).
Proof.
  unfold removed_by_sanitizer, sel_scripts, sel_styles, Dom.matches.
  cbn [existsb Dom.matches_compound]. rewrite !orb_false_r.
  rewrite !orb_true_iff, andb_true_iff, !String.eqb_eq.
  split.
  - intros [H|[H|[H1 H2]]]; [auto | auto |]. right. right. split; [exact H1|].
    destruct (Dom.getAttribute "rel" attrs) as [rel|]; [|discriminate].
    exists rel. split; [reflexivity|].
    destruct ns; cbn in H2; apply String.eqb_eq in H2; exact H2.
  - intros [H|[H|[H1 (rel & Hrel & H2)]]]; [auto | auto |]. right. right.
    split; [exact H1|]. rewrite Hrel.
    destruct ns; cbn; apply String.eqb_eq; exact H2.
Qed.

(** ** escapeHTML *)

(** The replacement of a character is one of the five entities. *)
Lemma charsToReplace_cases (c : ascii) (e : string) :
  charsToReplace c = Some e ->
  e = "&amp;" \/ e = "&lt;" \/ e = "&gt;" \/ e = "&#39;" \/ e = "&quot;".
Proof.
  unfold charsToReplace.
  repeat match goal with
         | |- context [if ?b then _ else _] => destruct b
         end; intros [= <-]; auto 10.
Qed.

Lemma escapeHTML_step (c : ascii) (r : string) :
  escapeHTML (String c r) =
    match charsToReplace c with
    | Some e => (e ++ escapeHTML r)%string
    | None => String c (escapeHTML r)
    end.
Proof. reflexivity. Qed.

(** X15: escaping distributes over concatenation: escaping a text piece
    by piece and joining the results gives the escaped whole, so the
    three values of the error block can be escaped one by one. *)
Theorem X15_escapeHTML_append (a b : string) :
  escapeHTML (a ++ b) = (escapeHTML a ++ escapeHTML b)%string.
Proof.
  induction a as [|c a IH]; [reflexivity|].
  rewrite append_cons, !escapeHTML_step, IH.
  destruct (charsToReplace c); [rewrite append_assoc|rewrite append_cons]; reflexivity.
Qed.

Lemma escapeHTML_length (s : string) :
  (String.length s <= String.length (escapeHTML s))%nat /\
  (Js.every (fun c => negb (replaced c)) s = false ->
   String.length s < String.length (escapeHTML s))%nat.
Proof.
  induction s as [|c r [IHle IHlt]]; [split; [reflexivity|discriminate]|].
  rewrite escapeHTML_step. cbn [Js.every]. unfold replaced at 1.
  destruct (charsToReplace c) as [e|] eqn:E.
  - rewrite string_length_append. cbn [String.length negb andb].
    assert (He : (2 <= String.length e)%nat).
    { destruct (charsToReplace_cases c e E) as [->|[->|[->|[->| ->]]]]; cbn; lia. }
    split; [lia|intros _; lia].
  - cbn [String.length negb andb]. split; [lia|]. intros H. specialize (IHlt H). lia.
Qed.

(** X16: a text comes out of [escapeHTML] unchanged exactly when it
    holds none of the five characters of the table; a text that holds
    one comes out strictly longer. *)
Theorem X16_escapeHTML_identity_iff (s : string) :
  (escapeHTML s = s <-> Js.every (fun c => negb (replaced c)) s = true) /\
  (String.length s <= String.length (escapeHTML s))%nat.
Proof.
  split; [|apply escapeHTML_length]. split.
  - intros H. destruct (Js.every (fun c => negb (replaced c)) s) eqn:E; [reflexivity|].
    destruct (escapeHTML_length s) as [_ Hlt]. specialize (Hlt E).
    rewrite H in Hlt. lia.
  - induction s as [|c r IH]; [reflexivity|].
    cbn [Js.every]. intros H. apply andb_true_iff in H as [Hc Hr].
    rewrite escapeHTML_step. unfold replaced in Hc.
    destruct (charsToReplace c); [discriminate|]. rewrite (IH Hr). reflexivity.
Qed.

(** X17: escaping loses nothing: two different texts have different
    escaped forms, so the text shown in an error block determines the
    text that was escaped. *)
Theorem X17_escapeHTML_injective (a b : string) :
  escapeHTML a = escapeHTML b -> a = b.
Proof.
  revert b. induction a as [|c1 r1 IH]; intros [|c2 r2].
  - reflexivity.
  - intros H. exfalso.
    destruct (escapeHTML_cons c2 r2)
      as [[_ E]|[[_ E]|[[_ E]|[[_ E]|[[_ E]|(_ & _ & E)]]]]];
      rewrite E in H; discriminate H.
  - intros H. exfalso.
    destruct (escapeHTML_cons c1 r1)
      as [[_ E]|[[_ E]|[[_ E]|[[_ E]|[[_ E]|(_ & _ & E)]]]]];
      rewrite E in H; discriminate H.
  - intros H.
    destruct (escapeHTML_cons c1 r1)
      as [[-> E1]|[[-> E1]|[[-> E1]|[[-> E1]|[[-> E1]|(N1 & _ & E1)]]]]];
      destruct (escapeHTML_cons c2 r2)
        as [[-> E2]|[[-> E2]|[[-> E2]|[[-> E2]|[[-> E2]|(N2 & _ & E2)]]]]];
      rewrite E1, E2 in H; rewrite ?append_cons, ?append_nil_l in H;
      try discriminate H;
      try (injection H as H; f_equal; exact (IH _ H));
      try (injection H as Hc H; congruence).
    injection H as -> H. f_equal. exact (IH _ H).
Qed.

Lemma X17_escapeHTML_injective_witness :
  "a<b" = "a<b".
Proof. exact (X17_escapeHTML_injective "a<b" "a<b" eq_refl). Defined.

(** X18: of the five characters of the table only [&] occurs in an
    escaped text: no [<], [>], single quote or double quote is left,
    whatever the input. *)
Theorem X18_escapeHTML_leaves_no_raw_character (s : string) :
  Js.every (fun c => negb (replaced c) || Ascii.eqb c "&") (escapeHTML s) = true.
Proof.
  induction s as [|c r IH]; [reflexivity|].
  rewrite escapeHTML_step.
  destruct (charsToReplace c) as [e|] eqn:E.
  - destruct (charsToReplace_cases c e E) as [->|[->|[->|[->| ->]]]];
      rewrite !append_cons, append_nil_l; cbn [Js.every]; rewrite IH; reflexivity.
  - cbn [Js.every]. unfold replaced at 1. rewrite E, IH. reflexivity.
Qed.

(** ** displayError *)

Lemma inherited_keys_not_own (c : string) :
  In c Object_prototype_keys -> ERROR_MAP_get c = JObject.
Proof.
  unfold Object_prototype_keys. cbn [In].
  intros H. decompose [or] H; subst; try reflexivity. contradiction.
Qed.

(** X19: the message of a code that [ERROR_MAP] does not hold.  For a
    code that is a property name every object inherits ([constructor],
    [toString], ...) the lookup gives a value that is not a string, and
    the reporter throws a TypeError without rendering or logging
    anything; for every other unknown code the block is rendered with
    the message [An unknown error occurred]. *)
Theorem X19_displayError_unknown_code (c : string) (url : option string)
    (w : World) :
  own_property c ERROR_MAP = None ->
  (In c Object_prototype_keys ->
     displayError c url w = (Throw Fetch.TypeError, with_event w (EvReport c url))) /\
  (~ In c Object_prototype_keys ->
     fst (displayError c url w) = Ok tt /\
     forall l, content w = Some l ->
       content (snd (displayError c url w)) =
         Some (l ++ [ErrorBlock "error"
                       (error_markup c "An unknown error occurred" url)])).
Proof.
  intros Hown. split.
  - intros Hin. unfold displayError. run_steps. unfold emit.
    rewrite (inherited_keys_not_own c Hin). reflexivity.
  - intros Hnot.
    assert (Hm : or_default (ERROR_MAP_get c) "An unknown error occurred" =
                 JString "An unknown error occurred").
    { unfold ERROR_MAP_get. rewrite Hown.
      destruct (existsb (String.eqb c) Object_prototype_keys) eqn:E; [|reflexivity].
      exfalso. apply Hnot. apply existsb_exists in E as (k & Hk & Heq).
      apply String.eqb_eq in Heq. subst. exact Hk. }
    split.
    + rewrite (displayError_spec c url w _ Hm). reflexivity.
    + intros l Hl. rewrite (displayError_content c url w _ Hm), Hl. reflexivity.
Qed.

Lemma X19_displayError_unknown_code_witness :
  displayError "constructor" None Sample.world0 =
    (Throw Fetch.TypeError, with_event Sample.world0 (EvReport "constructor" None)).
Proof.
  destruct (X19_displayError_unknown_code "constructor" None Sample.world0 eq_refl)
    as [H _].
  apply H. cbn. auto.
Defined.

(** X20: every call of the reporter is recorded once, with the code and
    URL it was given, and the reporter never touches the cache store;
    when the content region is absent it renders nothing and, unless it
    throws, writes the one console line [Content container not found]. *)
Theorem X20_displayError_effects (c : string) (url : option string) (w : World) :
  trace (snd (displayError c url w)) = trace w ++ [EvReport c url] /\
  cache (snd (displayError c url w)) = cache w /\
  (content w = None ->
     content (snd (displayError c url w)) = None /\
     (fst (displayError c url w) = Ok tt ->
        console (snd (displayError c url w)) =
          console w ++ ["Content container not found"])).
Proof.
  unfold displayError. run_steps. unfold emit, getElementById_content. cbn.
  destruct (or_default (ERROR_MAP_get c) "An unknown error occurred") as [m| |];
    cbn.
  - destruct (content w) eqn:E; cbn; rewrite ?E; repeat split; auto; discriminate.
  - repeat split; auto. discriminate.
  - repeat split; auto. discriminate.
Qed.

(** ** initializeApp *)

(** X21: how a page load ends.  Without a URL parameter, when the
    awaited stages succeed, and when they fail with a string code or
    with no code, [initializeApp] ends normally.  When they fail with a
    failure whose code is a number other than zero, as a rejected cache
    operation gives, the error reporter throws a TypeError on that code
    and the failure escapes [initializeApp].  In every case the network
    is called at most once and the error reporter at most once. *)
Theorem X21_initializeApp_completion (B : Browser) (userUrl : option string)
    (w : World) :
  (Js.truthy_opt userUrl = false -> fst (initializeApp B userUrl w) = Ok tt) /\
  (forall u, userUrl = Some u -> Js.truthy u = true ->
     fst (initializeApp B userUrl w) =
       match fst (pipeline B u w) with
       | Ok _ => Ok tt
       | Throw e => if carries_number e then Throw Fetch.TypeError else Ok tt
       end) /\
  exists evs,
    trace (snd (initializeApp B userUrl w)) = trace w ++ evs /\
    length (List.filter is_fetch evs) <= 1 /\
    length (List.filter is_report evs) <= 1.
Proof.
  split; [|split].
  - intros Ht. rewrite (initializeApp_missing B userUrl w Ht).
    rewrite (displayError_spec "missing_url" None w
               "Please provide a URL parameter in the query string" eq_refl).
    reflexivity.
  - intros u -> Ht. rewrite (initializeApp_spec B u w Ht).
    destruct (pipeline_shape B u w) as (_ & _ & Hcodes).
    destruct (pipeline B u w) as [[html|e] w1]; cbn [fst snd] in *; [reflexivity|].
    destruct (Hcodes e eq_refl) as [(-> & c & -> & Hin) | (-> & n & ->)].
    + destruct (pipeline_codes_have_messages c Hin) as [m Hm].
      rewrite (displayError_spec c (Some u) w1 m Hm). reflexivity.
    + reflexivity.
  - destruct (Js.truthy_opt userUrl) eqn:Ht.
    + destruct userUrl as [u|]; [|discriminate]. cbn in Ht.
      rewrite (initializeApp_spec B u w Ht).
      destruct (pipeline_shape B u w) as (_ & (evs & Hevs & Hrep & Hfetch) & _).
      destruct (pipeline B u w) as [[html|e] w1]; cbn [fst snd] in *.
      * exists evs.
        destruct (renderContentSafely_trace_cache B html w1) as [-> _].
        rewrite Hrep. cbn. repeat split; [exact Hevs | exact Hfetch | lia].
      * destruct (displayError_trace_cache (code_or (code e) "network_error")
                    (Some u) w1) as [-> _].
        exists (evs ++ [EvReport (code_or (code e) "network_error") (Some u)]).
        rewrite Hevs, <- app_assoc, !List.filter_app, !List.length_app, Hrep.
        cbn. repeat split; lia.
    + rewrite (initializeApp_missing B userUrl w Ht).
      destruct (displayError_trace_cache "missing_url" None w) as [-> _].
      exists [EvReport (CodeString "missing_url") None]. cbn. repeat split; lia.
Qed.

(** X22: without a [url] parameter, or with an empty one, the page load
    is the report of [missing_url] and nothing else: no cache lookup, no
    network call, the cache store untouched, and no URL in the report. *)
Theorem X22_initializeApp_missing_url (B : Browser) (userUrl : option string)
    (w : World) :
  Js.truthy_opt userUrl = false ->
  trace (snd (initializeApp B userUrl w)) = trace w ++ [EvReport "missing_url" None] /\
  cache (snd (initializeApp B userUrl w)) = cache w /\
  fetch_count (snd (initializeApp B userUrl w)) = fetch_count w.
Proof.
  intros Ht. rewrite (initializeApp_missing B userUrl w Ht).
  destruct (displayError_trace_cache "missing_url" None w) as [Htr Hc].
  split; [exact Htr|]. split; [exact Hc|].
  unfold fetch_count. rewrite Htr, List.filter_app, List.length_app. cbn. lia.
Qed.

Lemma X22_initializeApp_missing_url_witness :
  trace (snd (initializeApp (Sample.browser None) (Some EmptyString) Sample.world0)) =
    [EvReport "missing_url" None].
Proof.
  destruct (X22_initializeApp_missing_url (Sample.browser None) (Some EmptyString)
              Sample.world0 eq_refl) as [H _].
  exact H.
Defined.

(** X23: a page load never removes or changes an entry the cache store
    already holds. *)
Theorem X23_initializeApp_keeps_cache_entries (B : Browser)
    (userUrl : option string) (w : World) (k : string) :
  is_Some (cache w !! k) ->
  cache (snd (initializeApp B userUrl w)) !! k = cache w !! k.
Proof.
  intros Hk.
  destruct (Js.truthy_opt userUrl) eqn:Ht.
  - destruct userUrl as [u|]; [|discriminate]. cbn in Ht.
    rewrite (initializeApp_spec B u w Ht).
    assert (Hp : cache (snd (pipeline B u w)) !! k = cache w !! k).
    { unfold pipeline. run_steps.
      destruct (validateUrl_cases B u w)
        as [(x & _ & _ & Hok) | (e & He & _ & _ & _ & Hc)].
      - rewrite Hok. cbn [fst snd].
        destruct (fetchWithCache_cache B (buildArchiveUrl (href x)) w)
          as [-> | (Hmiss & r & ->)]; [reflexivity|].
        apply lookup_insert_ne. intros Heq. subst k.
        destruct Hk as [c Hc]. congruence.
      - destruct (validateUrl B u w) as [[v|e0] w0]; cbn in *; [discriminate|].
        rewrite Hc. reflexivity. }
    destruct (pipeline B u w) as [[html|e] w1]; cbn [fst snd] in *.
    + destruct (renderContentSafely_trace_cache B html w1) as [_ ->]. exact Hp.
    + destruct (displayError_trace_cache (code_or (code e) "network_error")
                  (Some u) w1) as [_ ->]. exact Hp.
  - rewrite (initializeApp_missing B userUrl w Ht).
    destruct (displayError_trace_cache "missing_url" None w) as [_ ->]. reflexivity.
Qed.

Lemma X23_initializeApp_keeps_cache_entries_witness :
  cache (snd (initializeApp (Sample.browser None) (Some Sample.page)
                (with_entry Sample.world0 "k" Sample.html_response))) !! "k" =
    Some Sample.html_response.
Proof.
  rewrite (X23_initializeApp_keeps_cache_entries (Sample.browser None)
             (Some Sample.page)
             (with_entry Sample.world0 "k" Sample.html_response) "k").
  - reflexivity.
  - exists Sample.html_response. reflexivity.
Defined.

Lemma fetch_count_of_trace (w w' : World) :
  trace w = trace w' -> fetch_count w = fetch_count w'.
Proof. unfold fetch_count. intros ->. reflexivity. Qed.

(** X24: a repeat visit is served from the cache.  When no cache
    operation rejects, a page load finds no entry for its archive
    request URL, the archive answers with a successful HTML response and
    the text of that response does not begin with a byte order mark (it
    is read back from the cache as it is), a second load of the same
    page makes no network call, and appends to the content region
    exactly what the first load appended. *)
Theorem X24_repeat_visit_served_from_cache (B : Browser) (u : string) (x : URL)
    (r : Fetch.Response) (w : World) (l : list Child) :
  (forall n, cache_rejects B n = None) ->
  Js.truthy u = true ->
  new_URL B u = Some x ->
  Js.startsWith "http" (protocol x) = true ->
  cache w !! buildArchiveUrl (href x) = None ->
  fetch B (fetch_count w) (buildArchiveUrl (href x)) = Some r ->
  Fetch.ok r = true ->
  declares_html r = true ->
  Fetch.utf8_decode (Fetch.text r) = Fetch.text r ->
  content w = Some l ->
  let first := initializeApp B (Some u) w in
  let second := initializeApp B (Some u) (snd first) in
  fetch_count (snd first) = S (fetch_count w) /\
  fetch_count (snd second) = S (fetch_count w) /\
  exists added,
    content (snd first) = Some (l ++ added) /\
    content (snd second) = Some ((l ++ added) ++ added).
Proof.
  intros Hrej Hu Hx Hs Hmiss Hnet Hok Hhtml Hdec Hl first second.
  set (key := buildArchiveUrl (href x)) in *.
  set (entry := Fetch.mkResponse 200 EmptyString
                  [("content-type", "text/plain;charset=UTF-8")]
                  (Some (Fetch.text r))).
  set (W1 := with_event
               (with_entry (with_event (with_event w (EvCacheMatch key)) (EvFetch key))
                  key entry)
               (EvCachePut key)).
  assert (Hp1 : pipeline B u w = (Ok (Fetch.text r), W1)).
  { unfold pipeline. run_steps. rewrite (validateUrl_accepts B u x w Hx Hs).
    fold key. rewrite fetchWithCache_spec. cbn zeta. rewrite Hrej, Hmiss.
    rewrite fetchArchiveContent_spec. cbn zeta.
    rewrite fetch_count_with_event. cbn [is_fetch].
    rewrite Hnet, Hok, Hhtml. cbn [negb]. cbv iota beta. rewrite Hrej.
    reflexivity. }
  assert (Hfirst : first = (Ok tt, snd (renderContentSafely B (Fetch.text r) W1))).
  { unfold first. rewrite (initializeApp_spec B u w Hu), Hp1. reflexivity. }
  set (W2 := snd (renderContentSafely B (Fetch.text r) W1)) in *.
  destruct (renderContentSafely_trace_cache B (Fetch.text r) W1) as [Ht2 Hc2].
  fold W2 in Ht2, Hc2.
  assert (Hcount1 : fetch_count W1 = S (fetch_count w)).
  { unfold W1. rewrite fetch_count_with_event. cbn [is_fetch].
    rewrite fetch_count_with_entry, !fetch_count_with_event. reflexivity. }
  assert (Hp2 : pipeline B u W2 =
                (Ok (Fetch.text r), with_event W2 (EvCacheMatch key))).
  { unfold pipeline. run_steps. rewrite (validateUrl_accepts B u x W2 Hx Hs).
    fold key. rewrite fetchWithCache_spec. cbn zeta. rewrite Hrej, Hc2.
    unfold W1. cbn [cache with_event with_entry].
    rewrite lookup_insert_eq. unfold entry, Fetch.text at 1. cbn [Fetch.body].
    rewrite Hdec. reflexivity. }
  assert (Hsecond : second =
            (Ok tt, snd (renderContentSafely B (Fetch.text r)
                           (with_event W2 (EvCacheMatch key))))).
  { unfold second. rewrite Hfirst. cbn [snd].
    rewrite (initializeApp_spec B u W2 Hu), Hp2. reflexivity. }
  assert (Hcontent1 : content W1 = Some l) by exact Hl.
  split; [|split].
  - rewrite Hfirst. cbn [snd]. rewrite (fetch_count_of_trace W2 W1 Ht2). exact Hcount1.
  - rewrite Hsecond. cbn [snd].
    destruct (renderContentSafely_trace_cache B (Fetch.text r)
                (with_event W2 (EvCacheMatch key))) as [Ht3 _].
    rewrite (fetch_count_of_trace _ _ Ht3), fetch_count_with_event. cbn [is_fetch].
    rewrite (fetch_count_of_trace W2 W1 Ht2). exact Hcount1.
  - exists (if Js.truthy (Fetch.text r)
            then [RenderedContent
                    (sanitize (Dom.set_children (parse_fragment B (Fetch.text r))
                                 (Dom.createElement 0 "div")))]
            else []).
    assert (Hc1 : content W2 =
              Some (l ++ if Js.truthy (Fetch.text r)
                         then [RenderedContent
                                 (sanitize (Dom.set_children
                                              (parse_fragment B (Fetch.text r))
                                              (Dom.createElement 0 "div")))]
                         else [])).
    { unfold W2. rewrite renderContentSafely_content, Hcontent1.
      destruct (Js.truthy (Fetch.text r)); [reflexivity|].
      rewrite app_nil_r. reflexivity. }
    split; [rewrite Hfirst; exact Hc1|].
    rewrite Hsecond. cbn [snd]. rewrite renderContentSafely_content.
    change (content (with_event W2 (EvCacheMatch key))) with (content W2).
    rewrite Hc1.
    destruct (Js.truthy (Fetch.text r)); [reflexivity|].
    rewrite !app_nil_r. reflexivity.
Qed.

Lemma X24_repeat_visit_served_from_cache_witness :
  fetch_count
    (snd (initializeApp (Sample.browser (Some Sample.html_response)) (Some Sample.page)
            (snd (initializeApp (Sample.browser (Some Sample.html_response))
                    (Some Sample.page) Sample.world0)))) = 1.
Proof.
  destruct (X24_repeat_visit_served_from_cache
              (Sample.browser (Some Sample.html_response)) Sample.page
              (mkURL "https:" "https://example.com/page") Sample.html_response
              Sample.world0 []
              (fun _ => eq_refl)
              eq_refl eq_refl eq_refl eq_refl eq_refl eq_refl eq_refl eq_refl eq_refl)
    as (_ & H & _).
  exact H.
Defined.

(** ** handleRequest and the fetch listener *)

(** X25: for a response the [Response] constructor accepts, the worker
    answers with the same body, status and status text, and with a
    header list in which Access-Control-Allow-Origin has the single
    value [*], whatever values and however many lines the network
    response had for it, under whatever spelling of the name; the values
    of every other header are the same as before. *)
Theorem X25_worker_sets_single_cors_header
    (network : ServiceWorker.Request -> option Fetch.Response)
    (request : ServiceWorker.Request) (r : Fetch.Response) :
  Js.startsWith "https://archive.today/" (ServiceWorker.url request) = true ->
  network request = Some r ->
  (200 <= Fetch.status r <= 599)%Z ->
  Fetch.reason_phrase (Fetch.statusText r) = true ->
  (Fetch.body r <> None -> Fetch.null_body_status (Fetch.status r) = false) ->
  exists r',
    ServiceWorker.on_fetch network request = ServiceWorker.RespondWith (Ok r') /\
    Fetch.body r' = Fetch.body r /\
    Fetch.status r' = Fetch.status r /\
    Fetch.statusText r' = Fetch.statusText r /\
    Fetch.values_of "Access-Control-Allow-Origin" (Fetch.headers r') = ["*"] /\
    (forall n, Fetch.name_eq n "Access-Control-Allow-Origin" = false ->
       Fetch.values_of n (Fetch.headers r') = Fetch.values_of n (Fetch.headers r)).
Proof.
  intros Hpre Hnet Hrange Hphrase Hnull.
  unfold ServiceWorker.on_fetch, ServiceWorker.handleRequest.
  rewrite Hpre, Hnet. unfold Fetch.new_Response.
  cbn [Fetch.init_status Fetch.init_statusText Fetch.init_headers].
  replace ((200 <=? Fetch.status r)%Z && (Fetch.status r <=? 599)%Z) with true
    by (symmetry; apply andb_true_iff; split; apply Z.leb_le; lia).
  rewrite Hphrase. cbn [negb].
  destruct (Fetch.body r) as [b|] eqn:Hb.
  - rewrite Hnull by discriminate.
    eexists. split; [reflexivity|]. cbn. repeat split; auto.
    + apply values_of_set_same. reflexivity.
    + intros n Hn. apply values_of_set_other. exact Hn.
  - eexists. split; [reflexivity|]. cbn. repeat split; auto.
    + apply values_of_set_same. reflexivity.
    + intros n Hn. apply values_of_set_other. exact Hn.
Qed.

Lemma X25_worker_sets_single_cors_header_witness :
  exists r',
    ServiceWorker.on_fetch (fun _ => Some Sample.archive_response)
      Sample.archive_image = ServiceWorker.RespondWith (Ok r') /\
    Fetch.body r' = Fetch.body Sample.archive_response /\
    Fetch.status r' = Fetch.status Sample.archive_response /\
    Fetch.statusText r' = Fetch.statusText Sample.archive_response /\
    Fetch.values_of "Access-Control-Allow-Origin" (Fetch.headers r') = ["*"] /\
    (forall n, Fetch.name_eq n "Access-Control-Allow-Origin" = false ->
       Fetch.values_of n (Fetch.headers r') =
         Fetch.values_of n (Fetch.headers Sample.archive_response)).
Proof.
  apply (X25_worker_sets_single_cors_header (fun _ => Some Sample.archive_response)
           Sample.archive_image Sample.archive_response eq_refl eq_refl).
  - cbn. lia.
  - reflexivity.
  - intros _. reflexivity.
Defined.
